(** * ModuleList: the registry of loaded modules and the shared module cache

    A shallow embedding of [source/Core/ModuleList.cpp].

    - A [Module] object is known to the registry only through its address
      (pointer identity) and, in the second half of the file, through the
      member functions the registry calls on it.
    - [ModuleSP] is [lldb::ModuleSP], a shared pointer that may be empty.
    - [collection] is [std::vector<ModuleSP>].  Every insertion in the source
      ([Append], [AppendIfNeeded]) rejects an empty reference, so the vector
      only ever holds non-empty references: its elements are modelled as the
      module objects themselves.
    - The recursive mutex is not modelled: every function below is one
      critical section, run single-threaded. *)

From Stdlib Require Import String Bool Arith PArith NArith ZArith Lia List.
Import ListNotations.

Set Implicit Arguments.

(** The address of a [Module] object. *)
Definition ModulePtr := positive.

Section Registry.

(** What a [Module] object holds is opaque to the registry. *)
Context {ModuleData : Type}.

Record ModuleObject := mkModule {
  Module_this : ModulePtr;
  Module_data : ModuleData
}.

(** [lldb::ModuleSP]; [None] is the empty shared pointer. *)
Definition ModuleSP := option ModuleObject.

(** [module_sp.get()]: the raw pointer, [None] for [NULL]. *)
Definition get (module_sp : ModuleSP) : option ModulePtr :=
  option_map Module_this module_sp.

Definition collection := list ModuleObject.

(** [pos->get() == module_sp.get()] for a non-empty [module_sp]. *)
Definition same_module (pos module : ModuleObject) : bool :=
  Pos.eqb (Module_this pos) (Module_this module).

(** The number of entries of the vector that point to the module at [p]. *)
Definition count_ptr (p : ModulePtr) (l : collection) : nat :=
  count_occ Pos.eq_dec (map Module_this l) p.

(** Whether some entry of the vector points to the module at [p]. *)
Definition holds (l : collection) (p : ModulePtr) : bool :=
  existsb (fun e => Pos.eqb (Module_this e) p) l.

(** ** Mutation *)

Definition Append (m_modules : collection) (module_sp : ModuleSP)
  : collection :=
  match module_sp with
  | Some module => m_modules ++ [module]
  | None => m_modules
  end.

(** The scan of [AppendIfNeeded]: [true] when it hits an entry with the
    identity of [module] (the source then returns [false]). *)
Fixpoint AppendIfNeeded_scan (pos : collection) (module : ModuleObject)
  : bool :=
  match pos with
  | [] => false
  | e :: rest =>
      if same_module e module then true
      else AppendIfNeeded_scan rest module
  end.

Definition AppendIfNeeded (m_modules : collection) (module_sp : ModuleSP)
  : bool * collection :=
  match module_sp with
  | Some module =>
      if AppendIfNeeded_scan m_modules module
      then (false, m_modules)
      else (true, m_modules ++ [module])
  | None => (false, m_modules)
  end.

(** The scan of [Remove]: the vector with the first entry of that identity
    erased, or [None] when the scan reaches [end]. *)
Fixpoint Remove_scan (pos : collection) (module : ModuleObject)
  : option collection :=
  match pos with
  | [] => None
  | e :: rest =>
      if same_module e module then Some rest
      else option_map (cons e) (Remove_scan rest module)
  end.

Definition Remove (m_modules : collection) (module_sp : ModuleSP)
  : bool * collection :=
  match module_sp with
  | Some module =>
      match Remove_scan m_modules module with
      | Some erased => (true, erased)
      | None => (false, m_modules)
      end
  | None => (false, m_modules)
  end.

(** [use_count()] of the shared pointer stored in an entry: one per entry
    of this registry for the same module, plus the owning references held
    anywhere else ([outside]). *)
Definition use_count (outside : ModulePtr -> nat) (m_modules : collection)
           (e : ModuleObject) : nat :=
  count_ptr (Module_this e) m_modules + outside (Module_this e).

(** [pos->unique()]. *)
Definition unique (outside : ModulePtr -> nat) (m_modules : collection)
           (e : ModuleObject) : bool :=
  use_count outside m_modules e =? 1.

(** The [while] loop of [RemoveOrphans].  The vector is [kept ++ pos]:
    [kept] is what lies before the iterator. *)
Fixpoint RemoveOrphans_loop (outside : ModulePtr -> nat)
         (kept pos : collection) (remove_count : nat) : nat * collection :=
  match pos with
  | [] => (remove_count, kept)
  | e :: rest =>
      if unique outside (kept ++ e :: rest) e
      then RemoveOrphans_loop outside kept rest (S remove_count)
      else RemoveOrphans_loop outside (kept ++ [e]) rest remove_count
  end.

Definition RemoveOrphans (outside : ModulePtr -> nat)
           (m_modules : collection) : nat * collection :=
  RemoveOrphans_loop outside [] m_modules 0.

(** [Remove (ModuleList &module_list)]: [pos] runs over the argument's
    vector, [m_modules] is the receiver's.  The two are distinct objects. *)
Fixpoint Remove_ModuleList_loop (pos : collection) (m_modules : collection)
         (num_removed : nat) : nat * collection :=
  match pos with
  | [] => (num_removed, m_modules)
  | e :: rest =>
      let '(removed, m_modules') := Remove m_modules (Some e) in
      Remove_ModuleList_loop rest m_modules'
        (if removed then S num_removed else num_removed)
  end.

Definition Remove_ModuleList (m_modules module_list : collection)
  : nat * collection :=
  Remove_ModuleList_loop module_list m_modules 0.

Definition Clear (m_modules : collection) : collection := [].

Definition GetSize (m_modules : collection) : nat := length m_modules.

(** ** Indexed access.  [idx] is a [uint32_t]: any [N] below [2^32]. *)

Definition GetModulePointerAtIndex (m_modules : collection) (idx : N)
  : option ModulePtr :=
  if (idx <? N.of_nat (length m_modules))%N
  then get (nth_error m_modules (N.to_nat idx))
  else None.

Definition GetModuleAtIndex (m_modules : collection) (idx : N) : ModuleSP :=
  let module_sp : ModuleSP := None in
  if (idx <? N.of_nat (length m_modules))%N
  then nth_error m_modules (N.to_nat idx)
  else module_sp.

(** ** Sequences of calls *)

(** [n] calls of [AppendIfNeeded] in a row with the same reference: the
    values returned, in order, and the registry afterwards. *)
Fixpoint AppendIfNeeded_times (n : nat) (m_modules : collection)
         (module_sp : ModuleSP) : list bool * collection :=
  match n with
  | O => ([], m_modules)
  | S k =>
      let '(r, m_modules') := AppendIfNeeded m_modules module_sp in
      let '(rs, m_modules'') := AppendIfNeeded_times k m_modules' module_sp in
      (r :: rs, m_modules'')
  end.

Inductive Call :=
| CallAppend (module_sp : ModuleSP)
| CallRemove (module_sp : ModuleSP).

(** Runs the calls in order; also counts the [Remove]s that returned
    [true]. *)
Fixpoint run_calls (calls : list Call) (m_modules : collection)
  : nat * collection :=
  match calls with
  | [] => (0, m_modules)
  | CallAppend sp :: rest => run_calls rest (Append m_modules sp)
  | CallRemove sp :: rest =>
      let '(removed, m_modules') := Remove m_modules sp in
      let '(n, final) := run_calls rest m_modules' in
      ((if removed then S n else n), final)
  end.

Definition is_Append (c : Call) : bool :=
  match c with CallAppend _ => true | CallRemove _ => false end.

Definition is_Append_nonnull (c : Call) : bool :=
  match c with CallAppend (Some _) => true | _ => false end.

Definition count_calls (f : Call -> bool) (calls : list Call) : nat :=
  length (filter f calls).

End Registry.

Arguments ModuleObject : clear implicits.
Arguments ModuleSP : clear implicits.
Arguments collection : clear implicits.
Arguments Call : clear implicits.

(** * Collaborators

    Everything below is declared outside [ModuleList.cpp]; the registry only
    calls it.  The value types come with the operations the source applies to
    them.  [FileSpec_Exists] and [FileSpec_GetModificationTime] read the file
    system, which is taken to stay as it is for the duration of the calls
    under study. *)

Class ValueTypes := {
  UUID : Type;
  UUID_IsValid : UUID -> bool;
  UUID_eqb : UUID -> UUID -> bool;
  UUID_GetAsCString : UUID -> string;
  TimeValue : Type;
  TimeValue_IsValid : TimeValue -> bool;
  TimeValue_eqb : TimeValue -> TimeValue -> bool;
  FileSpec : Type;
  FileSpec_bool : FileSpec -> bool;
  FileSpec_eqb : FileSpec -> FileSpec -> bool;
  FileSpec_Exists : FileSpec -> bool;
  FileSpec_GetModificationTime : FileSpec -> TimeValue;
  FileSpec_GetPath : FileSpec -> string;
  ArchSpec : Type;
  ArchSpec_IsValid : ArchSpec -> bool;
  ArchSpec_GetArchitectureName : ArchSpec -> string;
  ConstString : Type;
  RegularExpression : Type;
  SymbolType : Type;
  VariableSP : Type;
  TypeSP : Type
}.

(** Modelled from the spec: the declaration of [ModuleSpec] is not under
    [src/].  The spec (section 2) describes it as a descriptor holding an
    optional unique identifier, an on-disk path, a platform-specific path and an
    architecture tag; these are the four parts [GetSharedModule] reads or
    overwrites. *)
Record ModuleSpec `{ValueTypes} := mkModuleSpec {
  m_file : FileSpec;
  m_platform_file : FileSpec;
  m_arch : ArchSpec;
  m_uuid : UUID
}.

Arguments mkModuleSpec {_} _ _ _ _.

(** Modelled from the spec: [ModuleSpec::GetUUIDPtr] is not under [src/].
    It yields a pointer exactly when the spec carries a valid identifier
    (spec, section 4.4 step 1), and [NULL] otherwise. *)
Definition GetUUIDPtr `{ValueTypes} (module_spec : ModuleSpec) : option UUID :=
  if UUID_IsValid (m_uuid module_spec) then Some (m_uuid module_spec)
  else None.

(** The member functions of [Module] the registry calls, the field of
    [SymbolContext] it reads, and the symbol locator.  A member function that
    fills a caller-supplied list is a function from the list before the call
    to the list after it; where the source discards the returned count, the
    count is left out. *)
Class ModuleInterface `{ValueTypes} := {
  ModuleData : Type;
  SymbolContext : Type;
  SymbolContext_module_sp : SymbolContext -> ModuleSP ModuleData;
  Module_new : ModuleSpec -> ModuleData;
  Module_GetObjectFile : ModuleObject ModuleData -> bool;
  Module_GetUUID : ModuleObject ModuleData -> UUID;
  Module_GetModificationTime : ModuleObject ModuleData -> TimeValue;
  Module_MatchesModuleSpec : ModuleObject ModuleData -> ModuleSpec -> bool;
  Module_FindFunctions :
    ModuleObject ModuleData -> ConstString -> N -> bool -> bool -> bool ->
    list SymbolContext -> list SymbolContext;
  Module_FindCompileUnits :
    ModuleObject ModuleData -> FileSpec -> bool ->
    list SymbolContext -> list SymbolContext;
  Module_FindGlobalVariables :
    ModuleObject ModuleData -> ConstString -> bool -> N ->
    list VariableSP -> list VariableSP;
  Module_FindGlobalVariables_regex :
    ModuleObject ModuleData -> RegularExpression -> bool -> N ->
    list VariableSP -> list VariableSP;
  Module_FindSymbolsWithNameAndType :
    ModuleObject ModuleData -> ConstString -> SymbolType ->
    list SymbolContext -> list SymbolContext;
  Module_FindSymbolsMatchingRegExAndType :
    ModuleObject ModuleData -> RegularExpression -> SymbolType ->
    list SymbolContext -> list SymbolContext;
  Module_FindTypes :
    ModuleObject ModuleData -> SymbolContext -> ConstString -> bool -> N ->
    list TypeSP -> N * list TypeSP;
  Module_ResolveSymbolContextsForFileSpec :
    ModuleObject ModuleData -> FileSpec -> N -> bool -> N ->
    list SymbolContext -> list SymbolContext;
  Symbols_LocateExecutableObjectFile : ModuleSpec -> FileSpec
}.

(** ** Machine integers *)

(** Conversion to [uint32_t]. *)
Definition uint32 (n : N) : N := (n mod 2 ^ 32)%N.

(** [a - b] on [size_t] (64 bits). *)
Definition size_t_sub (a b : N) : N :=
  Z.to_N ((Z.of_N a - Z.of_N b) mod 2 ^ 64).

Section Broadcast.

Context {VT : ValueTypes} {MI : ModuleInterface}.

Local Abbreviation Obj := (ModuleObject ModuleData).
Local Abbreviation SymbolContextList := (list SymbolContext).
Local Abbreviation VariableList := (list VariableSP).
Local Abbreviation TypeList := (list TypeSP).

(** [sc_list.GetSize()], [variable_list.GetSize()]. *)
Definition List_GetSize {A : Type} (l : list A) : N := N.of_nat (length l).

Definition FindFunctions (m_modules : collection ModuleData)
           (name : ConstString) (name_type_mask : N)
           (include_symbols include_inlines append : bool)
           (sc_list : SymbolContextList) : N * SymbolContextList :=
  let sc_list := if negb append then [] else sc_list in
  let sc_list :=
    fold_left
      (fun sc_list pos =>
         Module_FindFunctions pos name name_type_mask include_symbols
                              include_inlines true sc_list)
      m_modules sc_list in
  (uint32 (List_GetSize sc_list), sc_list).

Definition FindCompileUnits (m_modules : collection ModuleData)
           (path : FileSpec) (append : bool) (sc_list : SymbolContextList)
  : N * SymbolContextList :=
  let sc_list := if negb append then [] else sc_list in
  let sc_list :=
    fold_left (fun sc_list pos => Module_FindCompileUnits pos path true sc_list)
              m_modules sc_list in
  (uint32 (List_GetSize sc_list), sc_list).

Definition FindGlobalVariables (m_modules : collection ModuleData)
           (name : ConstString) (append : bool) (max_matches : N)
           (variable_list : VariableList) : N * VariableList :=
  let initial_size := List_GetSize variable_list in
  let variable_list :=
    fold_left
      (fun variable_list pos =>
         Module_FindGlobalVariables pos name append max_matches variable_list)
      m_modules variable_list in
  (uint32 (size_t_sub (List_GetSize variable_list) initial_size),
   variable_list).

Definition FindGlobalVariables_regex (m_modules : collection ModuleData)
           (regex : RegularExpression) (append : bool) (max_matches : N)
           (variable_list : VariableList) : N * VariableList :=
  let initial_size := List_GetSize variable_list in
  let variable_list :=
    fold_left
      (fun variable_list pos =>
         Module_FindGlobalVariables_regex pos regex append max_matches
                                          variable_list)
      m_modules variable_list in
  (uint32 (size_t_sub (List_GetSize variable_list) initial_size),
   variable_list).

Definition FindSymbolsWithNameAndType (m_modules : collection ModuleData)
           (name : ConstString) (symbol_type : SymbolType)
           (sc_list : SymbolContextList) (append : bool)
  : N * SymbolContextList :=
  let sc_list := if negb append then [] else sc_list in
  let initial_size := List_GetSize sc_list in
  let sc_list :=
    fold_left
      (fun sc_list pos =>
         Module_FindSymbolsWithNameAndType pos name symbol_type sc_list)
      m_modules sc_list in
  (size_t_sub (List_GetSize sc_list) initial_size, sc_list).

Definition FindSymbolsMatchingRegExAndType (m_modules : collection ModuleData)
           (regex : RegularExpression) (symbol_type : SymbolType)
           (sc_list : SymbolContextList) (append : bool)
  : N * SymbolContextList :=
  let sc_list := if negb append then [] else sc_list in
  let initial_size := List_GetSize sc_list in
  let sc_list :=
    fold_left
      (fun sc_list pos =>
         Module_FindSymbolsMatchingRegExAndType pos regex symbol_type sc_list)
      m_modules sc_list in
  (size_t_sub (List_GetSize sc_list) initial_size, sc_list).

Definition ResolveSymbolContextsForFileSpec (m_modules : collection ModuleData)
           (file_spec : FileSpec) (line : N) (check_inlines : bool)
           (resolve_scope : N) (sc_list : SymbolContextList)
  : N * SymbolContextList :=
  let sc_list :=
    fold_left
      (fun sc_list pos =>
         Module_ResolveSymbolContextsForFileSpec pos file_spec line
                                                 check_inlines resolve_scope
                                                 sc_list)
      m_modules sc_list in
  (uint32 (List_GetSize sc_list), sc_list).

(** [FindModules]: appends to [matching_module_list] and returns how many it
    appended. *)
Definition FindModules (m_modules : collection ModuleData)
           (module_spec : ModuleSpec)
           (matching_module_list : collection ModuleData)
  : nat * collection ModuleData :=
  let existing_matches := GetSize matching_module_list in
  let matching_module_list :=
    fold_left
      (fun matching pos =>
         if Module_MatchesModuleSpec pos module_spec
         then Append matching (Some pos)
         else matching)
      m_modules matching_module_list in
  (GetSize matching_module_list - existing_matches, matching_module_list).

(** ** FindTypes *)

(** The state of the loop of [FindTypes].  [asked] is a record of the calls
    made on the modules, in order, each with the count it returned; nothing
    reads it. *)
Record FindTypes_state := mkFindTypes {
  total_matches : N;
  types : TypeList;
  asked : list (Obj * N)
}.

(** The test [sc.module_sp.get() == NULL || sc.module_sp.get() == pos->get()]. *)
Definition FindTypes_wants (sc : SymbolContext) (pos : Obj) : bool :=
  match get (SymbolContext_module_sp sc) with
  | None => true
  | Some p => Pos.eqb p (Module_this pos)
  end.

Fixpoint FindTypes_loop (sc : SymbolContext) (name : ConstString)
         (max_matches : N) (pos : collection ModuleData)
         (st : FindTypes_state) : FindTypes_state :=
  match pos with
  | [] => st
  | e :: rest =>
      let st :=
        if FindTypes_wants sc e then
          let '(n, types') :=
            Module_FindTypes e sc name true max_matches (types st) in
          {| total_matches := uint32 (total_matches st + n);
             types := types';
             asked := asked st ++ [(e, n)] |}
        else st in
      if (max_matches <=? total_matches st)%N then st
      else FindTypes_loop sc name max_matches rest st
  end.

(** The sum of the counts the asked modules returned. *)
Definition sum_counts (calls : list (Obj * N)) : N :=
  fold_right (fun call s => (snd call + s)%N) 0%N calls.

Definition FindTypes (m_modules : collection ModuleData)
           (sc : SymbolContext) (name : ConstString) (append : bool)
           (max_matches : N) (types : TypeList) : FindTypes_state :=
  let types := if negb append then [] else types in
  FindTypes_loop sc name max_matches m_modules
                 {| total_matches := 0; types := types; asked := [] |}.

End Broadcast.

(** * The shared module cache and [GetSharedModule] *)

Section SharedCache.

Context {VT : ValueTypes} {MI : ModuleInterface}.

Local Abbreviation Obj := (ModuleObject ModuleData).

(** The list behind [GetSharedModuleList], together with the address the
    next [new Module] will be placed at (addresses are not reused). *)
Record SharedModules := mkShared {
  g_shared_module_list : collection ModuleData;
  next_address : ModulePtr
}.

(** [Error]: [None] is success, [Some] carries the message. *)
Definition Error := option string.

Definition Error_Fail (error : Error) : bool :=
  match error with Some _ => true | None => false end.

(** What a call leaves behind: the returned [Error], the three outputs, and
    the cache.  An output pointer the caller passed as [NULL] is [None]. *)
Record GetSharedModule_result := mkResult {
  res_error : Error;
  res_module_sp : ModuleSP ModuleData;
  res_old_module_sp_ptr : option (ModuleSP ModuleData);
  res_did_create_ptr : option bool;
  res_shared : SharedModules
}.

(** How the scan over the matching modules ends. *)
Inductive scan_exit :=
| scan_return   (* [return error] inside the loop *)
| scan_break    (* [break] *)
| scan_end.     (* the index reached [num_matching_modules] *)

Record scan_state := mkScan {
  scan_module_sp : ModuleSP ModuleData;
  scan_old_module_sp_ptr : option (ModuleSP ModuleData);
  scan_shared_module_list : collection ModuleData
}.

(** The modification-time test of the scan: the spec's path is set, its
    modification time is valid and equals the one recorded in the module. *)
Definition same_modification_time (module_file_spec : FileSpec)
           (module : Obj) : bool :=
  if FileSpec_bool module_file_spec then
    let file_spec_mod_time :=
      FileSpec_GetModificationTime module_file_spec in
    if TimeValue_IsValid file_spec_mod_time then
      TimeValue_eqb file_spec_mod_time (Module_GetModificationTime module)
    else false
  else false.

(** [*old_module_sp_ptr = module_sp] under the guard
    [old_module_sp_ptr && !old_module_sp_ptr->get()]. *)
Definition record_old_if_unset (old_module_sp_ptr : option (ModuleSP ModuleData))
           (module : Obj) : option (ModuleSP ModuleData) :=
  match old_module_sp_ptr with
  | Some None => Some (Some module)
  | _ => old_module_sp_ptr
  end.

(** The old-module output once the candidates [retired] have gone through
    that assignment in order: only the first of them can be recorded. *)
Definition record_first (old_module_sp_ptr : option (ModuleSP ModuleData))
           (retired : collection ModuleData) : option (ModuleSP ModuleData) :=
  match retired with
  | [] => old_module_sp_ptr
  | module :: _ => record_old_if_unset old_module_sp_ptr module
  end.

(** The [for] loop over [matching_module_list]; [candidates] are its
    entries from [module_idx] on, as [GetModuleAtIndex] yields them. *)
Fixpoint GetSharedModule_scan (uuid_ptr : option UUID)
         (module_file_spec : FileSpec) (candidates : collection ModuleData)
         (old_module_sp_ptr : option (ModuleSP ModuleData))
         (shared_module_list : collection ModuleData)
  : scan_exit * scan_state :=
  match candidates with
  | [] => (scan_end, mkScan None old_module_sp_ptr shared_module_list)
  | module :: rest =>
      match uuid_ptr with
      | Some _ =>
          (scan_break,
           mkScan (Some module) old_module_sp_ptr shared_module_list)
      | None =>
          if same_modification_time module_file_spec module then
            (scan_return,
             mkScan (Some module) old_module_sp_ptr shared_module_list)
          else
            GetSharedModule_scan uuid_ptr module_file_spec rest
              (record_old_if_unset old_module_sp_ptr module)
              (snd (Remove shared_module_list (Some module)))
      end
  end.

Definition is_empty_string (s : string) : bool :=
  match s with EmptyString => true | String _ _ => false end.

(** [uuid_cstr] as the two error paths fill it. *)
Definition uuid_cstr_of (uuid_ptr : option UUID) : string :=
  match uuid_ptr with
  | Some uuid =>
      if UUID_IsValid uuid then UUID_GetAsCString uuid else EmptyString
  | None => EmptyString
  end.

(** From [Symbols::LocateExecutableObjectFile] to the end of the function.
    [module_sp] is empty on entry. *)
Definition GetSharedModule_locate (module_spec : ModuleSpec)
           (old_module_sp_ptr : option (ModuleSP ModuleData))
           (did_create_ptr : option bool)
           (shared_module_list : collection ModuleData)
           (next : ModulePtr) : GetSharedModule_result :=
  let uuid_ptr := GetUUIDPtr module_spec in
  let module_file_spec := m_file module_spec in
  let arch := m_arch module_spec in
  let file_spec := Symbols_LocateExecutableObjectFile module_spec in
  if negb (FileSpec_eqb file_spec module_file_spec) then
    if negb (FileSpec_Exists file_spec) then
      let path := FileSpec_GetPath file_spec in
      let path :=
        if is_empty_string path then FileSpec_GetPath module_file_spec
        else path in
      let error : Error :=
        if FileSpec_Exists file_spec then
          let uuid_cstr := uuid_cstr_of uuid_ptr in
          if ArchSpec_IsValid arch then
            if negb (is_empty_string uuid_cstr) then
              Some ("'" ++ path ++ "' does not contain the "
                        ++ ArchSpec_GetArchitectureName arch
                        ++ " architecture and UUID " ++ uuid_cstr)%string
            else
              Some ("'" ++ path ++ "' does not contain the "
                        ++ ArchSpec_GetArchitectureName arch
                        ++ " architecture.")%string
          else None
        else Some ("'" ++ path ++ "' does not exist")%string in
      mkResult error None old_module_sp_ptr did_create_ptr
               (mkShared shared_module_list next)
    else
      let platform_module_spec :=
        {| m_file := file_spec;
           m_platform_file := file_spec;
           m_arch := m_arch module_spec;
           m_uuid := m_uuid module_spec |} in
      let '(num_matching, matching_module_list) :=
        FindModules shared_module_list platform_module_spec [] in
      let '(module_sp, old_module_sp_ptr, shared_module_list) :=
        if 0 <? num_matching then
          match GetModuleAtIndex matching_module_list 0 with
          | Some module =>
              match GetUUIDPtr platform_module_spec with
              | None =>
                  let file_spec_mod_time :=
                    FileSpec_GetModificationTime file_spec in
                  if TimeValue_IsValid file_spec_mod_time then
                    if negb (TimeValue_eqb file_spec_mod_time
                                           (Module_GetModificationTime module))
                    then
                      (None,
                       option_map (fun _ => Some module) old_module_sp_ptr,
                       snd (Remove shared_module_list (Some module)))
                    else (Some module, old_module_sp_ptr, shared_module_list)
                  else (Some module, old_module_sp_ptr, shared_module_list)
              | Some _ => (Some module, old_module_sp_ptr, shared_module_list)
              end
          | None => (None, old_module_sp_ptr, shared_module_list)
          end
        else (None, old_module_sp_ptr, shared_module_list) in
      match module_sp with
      | None =>
          let module := mkModule next (Module_new platform_module_spec) in
          let next := Pos.succ next in
          if Module_GetObjectFile module then
            mkResult None (Some module) old_module_sp_ptr
                     (option_map (fun _ => true) did_create_ptr)
                     (mkShared (Append shared_module_list (Some module)) next)
          else
            let path := FileSpec_GetPath file_spec in
            let error : Error :=
              if FileSpec_bool file_spec then
                if ArchSpec_IsValid arch then
                  Some ("unable to open "
                          ++ ArchSpec_GetArchitectureName arch
                          ++ " architecture in '" ++ path ++ "'")%string
                else Some ("unable to open '" ++ path ++ "'")%string
              else
                let uuid_cstr := uuid_cstr_of uuid_ptr in
                if negb (is_empty_string uuid_cstr) then
                  Some ("cannot locate a module for UUID '"
                          ++ uuid_cstr ++ "'")%string
                else Some "cannot locate a module"%string in
            mkResult error (Some module) old_module_sp_ptr did_create_ptr
                     (mkShared shared_module_list next)
      | Some _ =>
          mkResult None module_sp old_module_sp_ptr did_create_ptr
                   (mkShared shared_module_list next)
      end
  else
    mkResult None None old_module_sp_ptr did_create_ptr
             (mkShared shared_module_list next).

(** From [module_sp.reset (new Module (module_spec))] on; reached when the
    scan left [module_sp] empty. *)
Definition GetSharedModule_create (module_spec : ModuleSpec)
           (old_module_sp_ptr : option (ModuleSP ModuleData))
           (did_create_ptr : option bool)
           (shared_module_list : collection ModuleData)
           (next : ModulePtr) : GetSharedModule_result :=
  let uuid_ptr := GetUUIDPtr module_spec in
  let module := mkModule next (Module_new module_spec) in
  let next := Pos.succ next in
  if Module_GetObjectFile module then
    if match uuid_ptr with
       | Some uuid => negb (UUID_eqb uuid (Module_GetUUID module))
       | None => false
       end
    then
      GetSharedModule_locate module_spec old_module_sp_ptr did_create_ptr
                             shared_module_list next
    else
      mkResult None (Some module) old_module_sp_ptr
               (option_map (fun _ => true) did_create_ptr)
               (mkShared (Append shared_module_list (Some module)) next)
  else
    GetSharedModule_locate module_spec old_module_sp_ptr did_create_ptr
                           shared_module_list next.

(** The search of the shared list when [always_create] is false. *)
Definition GetSharedModule_search (module_spec : ModuleSpec)
           (old_module_sp_ptr : option (ModuleSP ModuleData))
           (shared_module_list : collection ModuleData)
  : scan_exit * scan_state :=
  let '(num_matching_modules, matching_module_list) :=
    FindModules shared_module_list module_spec [] in
  if 0 <? num_matching_modules then
    GetSharedModule_scan (GetUUIDPtr module_spec) (m_file module_spec)
                         (firstn num_matching_modules matching_module_list)
                         old_module_sp_ptr shared_module_list
  else (scan_end, mkScan None old_module_sp_ptr shared_module_list).

Definition GetSharedModule (module_spec : ModuleSpec)
           (module_search_paths_ptr : option (list FileSpec))
           (old_module_sp_ptr : option (ModuleSP ModuleData))
           (did_create_ptr : option bool)
           (always_create : bool)
           (st : SharedModules) : GetSharedModule_result :=
  let shared_module_list := g_shared_module_list st in
  let did_create_ptr := option_map (fun _ => false) did_create_ptr in
  let old_module_sp_ptr :=
    option_map (fun _ => @None Obj) old_module_sp_ptr in
  let '(exit, sc) :=
    if negb always_create then
      GetSharedModule_search module_spec old_module_sp_ptr shared_module_list
    else (scan_end, mkScan None old_module_sp_ptr shared_module_list) in
  match exit, scan_module_sp sc with
  | scan_return, _
  | _, Some _ =>
      mkResult None (scan_module_sp sc) (scan_old_module_sp_ptr sc)
               did_create_ptr
               (mkShared (scan_shared_module_list sc) (next_address st))
  | _, None =>
      GetSharedModule_create module_spec (scan_old_module_sp_ptr sc)
                             did_create_ptr (scan_shared_module_list sc)
                             (next_address st)
  end.

Definition RemoveSharedModule (module_sp : ModuleSP ModuleData)
           (st : SharedModules) : bool * SharedModules :=
  let '(removed, l) := Remove (g_shared_module_list st) module_sp in
  (removed, mkShared l (next_address st)).

Definition RemoveOrphanSharedModules (outside : ModulePtr -> nat)
           (st : SharedModules) : nat * SharedModules :=
  let '(n, l) := RemoveOrphans outside (g_shared_module_list st) in
  (n, mkShared l (next_address st)).

End SharedCache.

(** * Lookup by identity, by identifier and by spec *)

Section Lookup.

Context {VT : ValueTypes} {MI : ModuleInterface}.

Local Abbreviation Obj := (ModuleObject ModuleData).

(** Equality of two raw [Module] pointers, either of which may be [NULL]. *)
Definition ptr_eqb (a b : option ModulePtr) : bool :=
  match a, b with
  | Some x, Some y => Pos.eqb x y
  | None, None => true
  | _, _ => false
  end.

(** [FindModule (const Module *module_ptr)]. *)
Fixpoint FindModule_ptr (pos : collection ModuleData)
         (module_ptr : option ModulePtr) : ModuleSP ModuleData :=
  match pos with
  | [] => None
  | e :: rest =>
      if ptr_eqb (get (Some e)) module_ptr then Some e
      else FindModule_ptr rest module_ptr
  end.

(** The loop of [FindModule (const UUID &uuid)]. *)
Fixpoint FindModule_uuid_scan (pos : collection ModuleData) (uuid : UUID)
  : ModuleSP ModuleData :=
  match pos with
  | [] => None
  | e :: rest =>
      if UUID_eqb (Module_GetUUID e) uuid then Some e
      else FindModule_uuid_scan rest uuid
  end.

Definition FindModule_uuid (m_modules : collection ModuleData) (uuid : UUID)
  : ModuleSP ModuleData :=
  if UUID_IsValid uuid then FindModule_uuid_scan m_modules uuid else None.

Fixpoint FindFirstModule (pos : collection ModuleData)
         (module_spec : ModuleSpec) : ModuleSP ModuleData :=
  match pos with
  | [] => None
  | e :: rest =>
      if Module_MatchesModuleSpec e module_spec then Some e
      else FindFirstModule rest module_spec
  end.

(** The loop of [GetIndexForModule]; [distance] is
    [std::distance (begin, pos)]. *)
Fixpoint GetIndexForModule_scan (pos : collection ModuleData)
         (distance : nat) (module : ModulePtr) : option nat :=
  match pos with
  | [] => None
  | e :: rest =>
      if ptr_eqb (get (Some e)) (Some module) then Some distance
      else GetIndexForModule_scan rest (S distance) module
  end.

(** [GetIndexForModule].  The macro [LLDB_INVALID_INDEX32] is defined outside
    [src/] and is a parameter; the distance is returned as a [uint32_t]. *)
Definition GetIndexForModule (LLDB_INVALID_INDEX32 : N)
           (m_modules : collection ModuleData) (module : option ModulePtr)
  : N :=
  match module with
  | Some p =>
      match GetIndexForModule_scan m_modules 0 p with
      | Some distance => uint32 (N.of_nat distance)
      | None => LLDB_INVALID_INDEX32
      end
  | None => LLDB_INVALID_INDEX32
  end.

(** [ModuleList::ModuleIsInCache]. *)
Definition ModuleIsInCache (module_ptr : option ModulePtr)
           (st : SharedModules) : bool :=
  match module_ptr with
  | Some _ =>
      negb (ptr_eqb (get (FindModule_ptr (g_shared_module_list st) module_ptr))
                    None)
  | None => false
  end.

Definition FindSharedModules (module_spec : ModuleSpec)
           (matching_module_list : collection ModuleData)
           (st : SharedModules) : nat * collection ModuleData :=
  FindModules (g_shared_module_list st) module_spec matching_module_list.

(** No two entries of the cache are for the same [Module] object, and every
    entry lies at an address handed out before [next_address]. *)
Definition cache_distinct (st : SharedModules) : Prop :=
  NoDup (map Module_this (g_shared_module_list st))
  /\ Forall (fun e : Obj => (Module_this e < next_address st)%positive)
            (g_shared_module_list st).

(** What a run of [GetSharedModule], or of its later parts, can have done to
    a shared list [l] with next free address [next]: it removed the modules
    [stale] from the list, in order, and then
    - handed out a module the list holds, or
    - constructed a module at a new address and appended it, or
    - failed, with an error or with an empty module reference.
    [old] and [did] are the outputs as they stood before. *)
Definition outcome (uuid_ptr : option UUID) (l : collection ModuleData)
           (next : ModulePtr) (old : option (ModuleSP ModuleData))
           (did : option bool) (stale : collection ModuleData)
           (r : GetSharedModule_result) : Prop :=
  let l0 := snd (Remove_ModuleList l stale) in
  Forall (fun x => In x l) stale
  /\ (uuid_ptr <> None -> stale = [])
  /\ (stale = [] -> res_old_module_sp_ptr r = old)
  /\ (forall x, res_old_module_sp_ptr r = Some (Some x) ->
                old = Some (Some x) \/ In x stale)
  /\ (next <= next_address (res_shared r))%positive
  /\ ((res_error r = None
       /\ (exists m, res_module_sp r = Some m
                     /\ holds l0 (Module_this m) = true)
       /\ g_shared_module_list (res_shared r) = l0
       /\ res_did_create_ptr r = did)
      \/ (res_error r = None
          /\ (exists m, res_module_sp r = Some m
                        /\ (next <= Module_this m)%positive
                        /\ next_address (res_shared r)
                           = Pos.succ (Module_this m)
                        /\ g_shared_module_list (res_shared r) = l0 ++ [m])
          /\ res_did_create_ptr r = option_map (fun _ => true) did)
      \/ ((res_error r <> None \/ res_module_sp r = None)
          /\ g_shared_module_list (res_shared r) = l0
          /\ res_did_create_ptr r = did)).

End Lookup.

(** * Queries answered by the first module that can

    [Module::FindSourceFile], [Module::ResolveFileAddress] and
    [Module::ResolveSymbolContextForAddress] fill an output argument and
    return whether (or what) they resolved; each is a function from the
    output before the call to the returned value and the output after.
    [Address] and its [GetModule] are declared outside [src/]. *)

Section FirstMatch.

Context {VT : ValueTypes} {MI : ModuleInterface}.

Local Abbreviation Obj := (ModuleObject ModuleData).

Variable Address : Type.
Variable Address_GetModule : Address -> ModuleSP ModuleData.
Variable Module_FindSourceFile : Obj -> FileSpec -> FileSpec -> bool * FileSpec.
Variable Module_ResolveFileAddress : Obj -> N -> Address -> bool * Address.
Variable Module_ResolveSymbolContextForAddress :
  Obj -> Address -> N -> SymbolContext -> N * SymbolContext.

Fixpoint FindSourceFile (pos : collection ModuleData)
         (orig_spec new_spec : FileSpec) : bool * FileSpec :=
  match pos with
  | [] => (false, new_spec)
  | e :: rest =>
      let '(found, new_spec) := Module_FindSourceFile e orig_spec new_spec in
      if found then (true, new_spec)
      else FindSourceFile rest orig_spec new_spec
  end.

Fixpoint ResolveFileAddress (pos : collection ModuleData) (vm_addr : N)
         (so_addr : Address) : bool * Address :=
  match pos with
  | [] => (false, so_addr)
  | e :: rest =>
      let '(resolved, so_addr) :=
        Module_ResolveFileAddress e vm_addr so_addr in
      if resolved then (true, so_addr)
      else ResolveFileAddress rest vm_addr so_addr
  end.

(** The loop of [ResolveSymbolContextForAddress] taken when the address has
    no module. *)
Fixpoint ResolveSymbolContextForAddress_scan (pos : collection ModuleData)
         (so_addr : Address) (resolve_scope : N) (sc : SymbolContext)
         (resolved_flags : N) : N * SymbolContext :=
  match pos with
  | [] => (resolved_flags, sc)
  | e :: rest =>
      let '(resolved_flags, sc) :=
        Module_ResolveSymbolContextForAddress e so_addr resolve_scope sc in
      if negb (resolved_flags =? 0)%N then (resolved_flags, sc)
      else ResolveSymbolContextForAddress_scan rest so_addr resolve_scope sc
                                               resolved_flags
  end.

Definition ResolveSymbolContextForAddress (m_modules : collection ModuleData)
           (so_addr : Address) (resolve_scope : N) (sc : SymbolContext)
  : N * SymbolContext :=
  let resolved_flags := 0%N in
  match Address_GetModule so_addr with
  | Some module =>
      Module_ResolveSymbolContextForAddress module so_addr resolve_scope sc
  | None =>
      ResolveSymbolContextForAddress_scan m_modules so_addr resolve_scope sc
                                          resolved_flags
  end.

End FirstMatch.

(** * A concrete world

    Small instances of the collaborators, on which the functions above can
    be run: identifiers, times and architectures are numbers ([0] is the
    invalid one), a [FileSpec] is its path, and the file system holds two
    files. *)

Module Scenario.

Local Open Scope string_scope.

Definition file_exists (path : string) : bool :=
  String.eqb path "/bin/ls" || String.eqb path "/dsym/ls".

Definition file_mod_time (path : string) : N :=
  if String.eqb path "/bin/ls" then 5%N
  else if String.eqb path "/dsym/ls" then 6%N
  else 0%N.

(** The identifier stored in the file. *)
Definition file_uuid (path : string) : N :=
  if String.eqb path "/bin/ls" then 7%N
  else if String.eqb path "/dsym/ls" then 9%N
  else 0%N.

Definition nonzero (n : N) : bool := negb (N.eqb n 0).

#[export] Instance values : ValueTypes := {|
  UUID := N;
  UUID_IsValid := nonzero;
  UUID_eqb := N.eqb;
  UUID_GetAsCString := fun _ => "UUID";
  TimeValue := N;
  TimeValue_IsValid := nonzero;
  TimeValue_eqb := N.eqb;
  FileSpec := string;
  FileSpec_bool := fun path => negb (is_empty_string path);
  FileSpec_eqb := String.eqb;
  FileSpec_Exists := file_exists;
  FileSpec_GetModificationTime := file_mod_time;
  FileSpec_GetPath := fun path => path;
  ArchSpec := N;
  ArchSpec_IsValid := nonzero;
  ArchSpec_GetArchitectureName := fun _ => "arch";
  ConstString := string;
  RegularExpression := string;
  SymbolType := N;
  VariableSP := N;
  TypeSP := N
|}.

(** What a module of this world holds: where it was loaded from, what it
    read there, and the types it answers [FindTypes] with. *)
Record Data := mkData {
  d_file : string;
  d_arch : N;
  d_uuid : N;
  d_mod_time : N;
  d_object_file : bool;
  d_types : list N
}.

Record Context_ := mkContext {
  sc_module_sp : ModuleSP Data;
  sc_line : N
}.

(** The constructor reads the file the spec names. *)
Definition Data_new (module_spec : ModuleSpec) : Data :=
  {| d_file := m_file module_spec;
     d_arch := m_arch module_spec;
     d_uuid := file_uuid (m_file module_spec);
     d_mod_time := file_mod_time (m_file module_spec);
     d_object_file := file_exists (m_file module_spec);
     d_types := [] |}.

(** Modelled from the spec: [Module::MatchesModuleSpec] is not under [src/].
    Section 4.3: if the spec carries a unique identifier, match on identifier
    equality alone; otherwise match on path equality and architecture
    compatibility. *)
Definition Data_matches (module : ModuleObject Data) (module_spec : ModuleSpec)
  : bool :=
  if nonzero (m_uuid module_spec) then
    N.eqb (m_uuid module_spec) (d_uuid (Module_data module))
  else
    String.eqb (m_file module_spec) (d_file (Module_data module))
    && (negb (nonzero (m_arch module_spec))
        || N.eqb (m_arch module_spec) (d_arch (Module_data module))).

(** Every list-filling member function adds one context naming the
    module. *)
Definition add_context (module : ModuleObject Data) (line : N)
           (sc_list : list Context_) : list Context_ :=
  sc_list ++ [mkContext (Some module) line].

(** The locator knows one relocation: the binary asked for at ["/tmp/ls"] is
    to be found at ["/dsym/ls"]. *)
Definition locate (module_spec : ModuleSpec) : string :=
  if String.eqb (m_file module_spec) "/tmp/ls" then "/dsym/ls" else EmptyString.

#[export] Instance interface : ModuleInterface := {|
  ModuleData := Data;
  SymbolContext := Context_;
  SymbolContext_module_sp := sc_module_sp;
  Module_new := Data_new;
  Module_GetObjectFile := fun module => d_object_file (Module_data module);
  Module_GetUUID := fun module => d_uuid (Module_data module);
  Module_GetModificationTime := fun module => d_mod_time (Module_data module);
  Module_MatchesModuleSpec := Data_matches;
  Module_FindFunctions := fun module _ _ _ _ _ => add_context module 0;
  Module_FindCompileUnits := fun module _ _ => add_context module 0;
  Module_FindGlobalVariables := fun _ _ _ _ variable_list => variable_list;
  Module_FindGlobalVariables_regex := fun _ _ _ _ variable_list => variable_list;
  Module_FindSymbolsWithNameAndType := fun module _ _ => add_context module 0;
  Module_FindSymbolsMatchingRegExAndType :=
    fun module _ _ => add_context module 0;
  Module_FindTypes :=
    fun module _ _ _ _ types =>
      (N.of_nat (length (d_types (Module_data module))),
       (types ++ d_types (Module_data module))%list);
  Module_ResolveSymbolContextsForFileSpec :=
    fun module _ line _ _ => add_context module line;
  Symbols_LocateExecutableObjectFile := locate
|}.

(** Two modules loaded from ["/bin/ls"] at earlier times, and one from
    ["/dsym/ls"]. *)
Definition module_A : ModuleObject Data :=
  mkModule 1%positive (mkData "/bin/ls" 1 7 3 true [10; 11]%N).

Definition module_B : ModuleObject Data :=
  mkModule 2%positive (mkData "/bin/ls" 1 7 4 true [20]%N).

Definition module_C : ModuleObject Data :=
  mkModule 3%positive (mkData "/dsym/ls" 1 9 6 true [30; 31; 32]%N).

(** A module loaded from ["/bin/ls"] as it is now. *)
Definition module_D : ModuleObject Data :=
  mkModule 4%positive (mkData "/bin/ls" 1 7 5 true [40]%N).

(** Nobody outside the registry holds a module; only [module_B] is held
    outside. *)
Definition no_holder (p : ModulePtr) : nat := 0.

Definition holder_of_B (p : ModulePtr) : nat :=
  if Pos.eqb p 2%positive then 1 else 0.

Definition context_of (module : ModuleObject Data) : Context_ :=
  mkContext (Some module) 0.

(** A spec with a path and no identifier, and one with an identifier whose
    path is not on disk. *)
Definition spec_path_only : ModuleSpec := mkModuleSpec "/bin/ls" "/bin/ls" 0%N 0%N.

Definition spec_with_uuid : ModuleSpec := mkModuleSpec "/tmp/ls" "/tmp/ls" 0%N 7%N.

Definition spec_bin_ls_uuid : ModuleSpec := mkModuleSpec "/bin/ls" "/bin/ls" 0%N 7%N.

Definition any_context : Context_ := mkContext None 0.

End Scenario.

(** ** More of the concrete world: source files and load addresses *)

Module ScenarioQueries.

Import Scenario.

Local Open Scope string_scope.

(** Only the module loaded from ["/dsym/ls"] knows where sources are. *)
Definition find_source (module : ModuleObject Data) (orig_spec new_spec : string)
  : bool * string :=
  if String.eqb (d_file (Module_data module)) "/dsym/ls"
  then (true, "/src/" ++ orig_spec)
  else (false, new_spec).

(** A section-offset address: the module it lies in, if known, and the
    offset. *)
Record so_address := mkAddress {
  addr_module : ModuleSP Data;
  addr_offset : N
}.

(** The module at address [k] is loaded at [100 * k .. 100 * k + 99]. *)
Definition resolve_file_address (module : ModuleObject Data) (vm_addr : N)
           (so_addr : so_address) : bool * so_address :=
  if N.eqb (vm_addr / 100) (Npos (Module_this module))
  then (true, mkAddress (Some module) (vm_addr mod 100))
  else (false, so_addr).

(** A module resolves an address whose offset is one of its types' numbers;
    it then answers with flag [1] and a context naming itself. *)
Definition resolve_context (module : ModuleObject Data) (so_addr : so_address)
           (resolve_scope : N) (sc : Context_) : N * Context_ :=
  if existsb (N.eqb (addr_offset so_addr)) (d_types (Module_data module))
  then (1%N, mkContext (Some module) (addr_offset so_addr))
  else (0%N, sc).

(** A spec whose path is not on disk and that the locator cannot place. *)
Definition spec_nowhere : ModuleSpec :=
  mkModuleSpec "/nowhere" "/nowhere" 0%N 0%N.

End ScenarioQueries.

(** ** One pass over the receiver

    What [Remove (ModuleList &)] leaves of the receiver, described by a
    single pass over the receiver from its first entry: an entry is dropped
    when [pending] still holds its module, which uses up one entry of
    [pending] for that module; otherwise it is kept.  [pending] starts as
    the argument's vector. *)

Section OnePass.

Context {ModuleData : Type}.

Fixpoint without_first_matches (pos pending : collection ModuleData)
  : collection ModuleData :=
  match pos with
  | [] => []
  | e :: rest =>
      if holds pending (Module_this e)
      then without_first_matches rest (snd (Remove pending (Some e)))
      else e :: without_first_matches rest pending
  end.

End OnePass.

(** ** A second concrete world: modules that report counts

    A module of this world answers [FindTypes] with the count it holds,
    whatever that is, and answers the searches for global variables with its
    own variables, behind what the list held (after emptying it when
    [append] is false).  Its other member functions find nothing. *)

Module ScenarioReports.

Import Scenario.

Record Report := mkReport {
  reported : N;
  globals : list N
}.

Definition find_globals (module : ModuleObject Report) (append : bool)
           (variable_list : list N) : list N :=
  (if append then variable_list else []) ++ globals (Module_data module).

Definition reports : ModuleInterface := {|
  ModuleData := Report;
  SymbolContext := ModuleSP Report;
  SymbolContext_module_sp := fun sc => sc;
  Module_new := fun _ => mkReport 0 [];
  Module_GetObjectFile := fun _ => false;
  Module_GetUUID := fun _ => 0%N;
  Module_GetModificationTime := fun _ => 0%N;
  Module_MatchesModuleSpec := fun _ _ => false;
  Module_FindFunctions := fun _ _ _ _ _ _ sc_list => sc_list;
  Module_FindCompileUnits := fun _ _ _ sc_list => sc_list;
  Module_FindGlobalVariables :=
    fun module _ append _ variable_list =>
      find_globals module append variable_list;
  Module_FindGlobalVariables_regex :=
    fun module _ append _ variable_list =>
      find_globals module append variable_list;
  Module_FindSymbolsWithNameAndType := fun _ _ _ sc_list => sc_list;
  Module_FindSymbolsMatchingRegExAndType := fun _ _ _ sc_list => sc_list;
  Module_FindTypes :=
    fun module _ _ _ _ types => (reported (Module_data module), types);
  Module_ResolveSymbolContextsForFileSpec := fun _ _ _ _ _ sc_list => sc_list;
  Symbols_LocateExecutableObjectFile := fun _ => EmptyString
|}.

Definition module_P : ModuleObject Report :=
  mkModule 1%positive (mkReport 4294967294 [100; 101]%N).

Definition module_Q : ModuleObject Report :=
  mkModule 2%positive (mkReport 3 [200]%N).

Definition module_R : ModuleObject Report :=
  mkModule 3%positive (mkReport 5 []).

(** A spec that asks for identifier [7] at ["/dsym/ls"], a file that is on
    disk and carries identifier [9]. *)
Definition spec_dsym_uuid : ModuleSpec :=
  mkModuleSpec "/dsym/ls"%string "/dsym/ls"%string 0%N 7%N.

End ScenarioReports.

Unset Implicit Arguments.

(** * Facts about the registry *)

Section RegistryFacts.

Context {ModuleData : Type}.

Local Abbreviation Obj := (ModuleObject ModuleData).
Local Abbreviation registry := (collection ModuleData).

Implicit Types (l pos kept : registry) (e m module : Obj) (p : ModulePtr).

Lemma count_ptr_cons p e l :
  count_ptr p (e :: l) =
  (if Pos.eqb (Module_this e) p then 1 else 0) + count_ptr p l.
Proof.
  unfold count_ptr; simpl.
  destruct (Pos.eq_dec (Module_this e) p) as [Heq | Hne].
  - rewrite Heq, Pos.eqb_refl; reflexivity.
  - apply Pos.eqb_neq in Hne; rewrite Hne; reflexivity.
Qed.

Lemma count_ptr_app p l1 l2 :
  count_ptr p (l1 ++ l2) = count_ptr p l1 + count_ptr p l2.
Proof.
  unfold count_ptr; rewrite map_app; apply count_occ_app.
Qed.

Lemma count_ptr_zero_iff p l :
  count_ptr p l = 0 <-> ~ In p (map Module_this l).
Proof.
  unfold count_ptr; symmetry; apply count_occ_not_In.
Qed.

Lemma holds_true_iff l p :
  holds l p = true <-> In p (map Module_this l).
Proof.
  unfold holds; rewrite existsb_exists, in_map_iff; split.
  - intros [e [Hin Heq]]; apply Pos.eqb_eq in Heq; eauto.
  - intros [e [Heq Hin]]; exists e; split; [assumption|].
    apply Pos.eqb_eq; assumption.
Qed.

Lemma holds_false_iff l p :
  holds l p = false <-> ~ In p (map Module_this l).
Proof.
  rewrite <- holds_true_iff; destruct (holds l p); split; congruence.
Qed.

Lemma AppendIfNeeded_scan_holds l m :
  AppendIfNeeded_scan l m = holds l (Module_this m).
Proof.
  induction l as [| e l IH]; simpl; [reflexivity|].
  unfold same_module; destruct (Pos.eqb (Module_this e) (Module_this m));
    simpl; auto.
Qed.

(** Once a module is in the registry, any number of further
    [AppendIfNeeded] calls with it return [false] and change nothing. *)
Lemma AppendIfNeeded_times_present n l m :
  holds l (Module_this m) = true ->
  AppendIfNeeded_times n l (Some m) = (repeat false n, l).
Proof.
  intros Hin; induction n as [| n IH]; simpl; [reflexivity|].
  rewrite AppendIfNeeded_scan_holds, Hin, IH; reflexivity.
Qed.

(** Reading the indices [0], [1], ... in turn enumerates the vector. *)
Lemma GetModuleAtIndex_of_nat l (i : nat) :
  i < length l -> GetModuleAtIndex l (N.of_nat i) = nth_error l i.
Proof.
  intros Hi; unfold GetModuleAtIndex.
  assert (Hlt : (N.of_nat i <? N.of_nat (length l))%N = true)
    by (apply N.ltb_lt; lia).
  rewrite Hlt, Nat2N.id; reflexivity.
Qed.

Lemma holds_app_self l m : holds (l ++ [m]) (Module_this m) = true.
Proof.
  apply holds_true_iff; rewrite map_app; apply in_or_app; right; simpl; auto.
Qed.

(** ** What one [Remove] does to the vector *)

Lemma Remove_scan_Some l m l' :
  Remove_scan l m = Some l' ->
  length l = S (length l') /\
  forall p, count_ptr p l =
            (if Pos.eqb (Module_this m) p then 1 else 0) + count_ptr p l'.
Proof.
  revert l'; induction l as [| e l IH]; simpl; intros l' Hscan; [discriminate|].
  unfold same_module in Hscan.
  destruct (Pos.eqb (Module_this e) (Module_this m)) eqn:Heq.
  - injection Hscan as <-; split; [reflexivity|].
    intros p; rewrite count_ptr_cons.
    apply Pos.eqb_eq in Heq; rewrite Heq; reflexivity.
  - destruct (Remove_scan l m) as [l0 |]; simpl in Hscan; [|discriminate].
    injection Hscan as <-.
    destruct (IH l0 eq_refl) as [Hlen Hcount]; split; [simpl; lia|].
    intros p; rewrite !count_ptr_cons, Hcount; lia.
Qed.

Lemma Remove_scan_None l m :
  Remove_scan l m = None <-> holds l (Module_this m) = false.
Proof.
  induction l as [| e l IH]; simpl; [tauto|].
  unfold same_module.
  destruct (Pos.eqb (Module_this e) (Module_this m)); simpl.
  - split; discriminate.
  - rewrite <- IH; destruct (Remove_scan l m); simpl; split;
      try discriminate; reflexivity.
Qed.

Lemma Remove_length l sp :
  length (snd (Remove l sp)) + (if fst (Remove l sp) then 1 else 0) = length l.
Proof.
  destruct sp as [m |]; simpl; [|lia].
  destruct (Remove_scan l m) as [l' |] eqn:Hscan; simpl; [|lia].
  apply Remove_scan_Some in Hscan; lia.
Qed.

Lemma Remove_count l m p :
  count_ptr p (snd (Remove l (Some m))) =
  count_ptr p l - (if Pos.eqb (Module_this m) p then 1 else 0).
Proof.
  simpl; destruct (Remove_scan l m) as [l' |] eqn:Hscan; simpl.
  - apply Remove_scan_Some in Hscan as [_ Hcount]; rewrite Hcount; lia.
  - apply Remove_scan_None, holds_false_iff, count_ptr_zero_iff in Hscan.
    destruct (Pos.eqb (Module_this m) p) eqn:Heq; [|lia].
    apply Pos.eqb_eq in Heq; subst p; lia.
Qed.

(** In a registry without duplicates, [Remove] erases every entry of that
    identity. *)
Lemma Remove_NoDup l m :
  NoDup (map Module_this l) ->
  snd (Remove l (Some m)) =
  filter (fun e => negb (Pos.eqb (Module_this e) (Module_this m))) l.
Proof.
  simpl; induction l as [| e l IH]; simpl; intros Hnd; [reflexivity|].
  inversion Hnd as [| ? ? Hnotin Hnd']; subst.
  unfold same_module.
  destruct (Pos.eqb (Module_this e) (Module_this m)) eqn:Heq; simpl.
  - apply Pos.eqb_eq in Heq. symmetry; apply forallb_filter_id.
    apply forallb_forall; intros x Hx.
    apply negb_true_iff, Pos.eqb_neq; intros Hxe.
    apply Hnotin; rewrite Heq, <- Hxe; apply in_map; assumption.
  - specialize (IH Hnd').
    destruct (Remove_scan l m) as [l' |]; simpl in *; congruence.
Qed.

Lemma NoDup_map_filter (f : Obj -> bool) l :
  NoDup (map Module_this l) -> NoDup (map Module_this (filter f l)).
Proof.
  induction l as [| e l IH]; simpl; intros Hnd; [constructor|].
  inversion Hnd as [| ? ? Hnotin Hnd']; subst.
  destruct (f e); simpl; auto.
  constructor; auto.
  intros Hin; apply Hnotin.
  apply in_map_iff in Hin as [x [Hx Hin]].
  apply filter_In in Hin as [Hin _].
  rewrite <- Hx; apply in_map; assumption.
Qed.

End RegistryFacts.

(** * Properties of the registry operations *)

Section RegistryProperties.

Context {ModuleData : Type}.

Local Abbreviation Obj := (ModuleObject ModuleData).
Local Abbreviation registry := (collection ModuleData).

Implicit Types (l pos kept R S : registry) (e m module : Obj) (p : ModulePtr).

(** C10: [AppendIfNeeded] and [Remove] called with an empty (null) module
    reference return [false] and leave the registry as it was. *)
Theorem null_reference_is_ignored l :
  AppendIfNeeded l None = (false, l) /\ Remove l None = (false, l).
Proof. split; reflexivity. Qed.

(** C9: [GetModuleAtIndex] and [GetModulePointerAtIndex] are total.  For an
    index below the length they return the entry at that position (as a
    shared reference, respectively as its raw pointer); for any other index
    they return the empty reference, respectively the null pointer. *)
Theorem GetModuleAtIndex_in_and_out_of_range l (idx : N) :
  ((idx < N.of_nat (length l))%N ->
   exists e, nth_error l (N.to_nat idx) = Some e /\
             GetModuleAtIndex l idx = Some e /\
             GetModulePointerAtIndex l idx = Some (Module_this e))
  /\
  ((N.of_nat (length l) <= idx)%N ->
   GetModuleAtIndex l idx = None /\ GetModulePointerAtIndex l idx = None).
Proof.
  unfold GetModuleAtIndex, GetModulePointerAtIndex; split; intros Hidx.
  - assert (Hlt : N.to_nat idx < length l) by lia.
    apply nth_error_Some in Hlt.
    destruct (nth_error l (N.to_nat idx)) as [e |] eqn:Hnth; [|congruence].
    exists e; apply N.ltb_lt in Hidx; rewrite Hidx; auto.
  - apply N.ltb_ge in Hidx; rewrite Hidx; auto.
Qed.

(** C2 (amended): for a non-null reference to a module the registry does not hold yet,
    [n + 1] calls of [AppendIfNeeded] in a row return [true] on the first call and
    [false] on the [n] others, and leave the registry one entry longer, the
    module appended at its end.  For a module the registry already holds,
    every call returns [false] and the registry stays as it was. *)
Theorem AppendIfNeeded_times_idempotent l m (n : nat) :
  (~ In (Module_this m) (map Module_this l) ->
   AppendIfNeeded_times (S n) l (Some m) = (true :: repeat false n, l ++ [m])
   /\ length (l ++ [m]) = S (length l))
  /\
  (In (Module_this m) (map Module_this l) ->
   AppendIfNeeded_times n l (Some m) = (repeat false n, l)).
Proof.
  split; intros Hin.
  - apply holds_false_iff in Hin; split.
    + simpl; rewrite AppendIfNeeded_scan_holds, Hin.
      rewrite AppendIfNeeded_times_present by apply holds_app_self.
      reflexivity.
    + rewrite length_app; simpl; lia.
  - apply AppendIfNeeded_times_present, holds_true_iff; assumption.
Qed.

(** C6 (amended): after any sequence of [Append] and [Remove] calls, the length of
    the registry is its initial length, plus the number of [Append] calls
    that were given a non-null reference, minus the number of [Remove] calls
    that returned [true]. *)
Theorem run_calls_length (calls : list (Call ModuleData)) l :
  length (snd (run_calls calls l)) + fst (run_calls calls l) =
  length l + count_calls (@is_Append_nonnull ModuleData) calls.
Proof.
  unfold count_calls; revert l.
  induction calls as [| c calls IH]; intros l; simpl; [lia|].
  destruct c as [sp | sp].
  - rewrite IH; destruct sp as [m |]; simpl; [|lia].
    rewrite length_app; simpl; lia.
  - pose proof (Remove_length l sp) as Hlen.
    destruct (Remove l sp) as [removed l'] eqn:Hrem; simpl in Hlen.
    specialize (IH l').
    destruct (run_calls calls l') as [k final]; simpl in *.
    destruct removed; lia.
Qed.

(** ** [Remove (ModuleList &)] *)

Lemma Remove_ModuleList_loop_spec S R k :
  fst (Remove_ModuleList_loop S R k) + length (snd (Remove_ModuleList_loop S R k))
  = k + length R
  /\ forall p, count_ptr p (snd (Remove_ModuleList_loop S R k))
               = count_ptr p R - count_ptr p S.
Proof.
  revert R k; induction S as [| e S IH]; intros R k.
  - simpl; split; [lia|]. intros p; unfold count_ptr at 3; simpl; lia.
  - cbn [Remove_ModuleList_loop].
    pose proof (Remove_length R (Some e)) as Hlen.
    pose proof (Remove_count R e) as Hcount.
    destruct (Remove R (Some e)) as [removed R'] eqn:Hrem.
    cbn [fst snd] in Hlen, Hcount.
    destruct (IH R' (if removed then Datatypes.S k else k)) as [IHlen IHcount].
    split.
    + rewrite IHlen; destruct removed; lia.
    + intros p; rewrite IHcount, Hcount, count_ptr_cons; lia.
Qed.

Lemma Remove_ModuleList_loop_NoDup S R k :
  NoDup (map Module_this R) ->
  snd (Remove_ModuleList_loop S R k) =
  filter (fun e => negb (holds S (Module_this e))) R.
Proof.
  revert R k; induction S as [| x S IH]; intros R k Hnd.
  - simpl; symmetry; apply forallb_filter_id, forallb_forall; reflexivity.
  - cbn [Remove_ModuleList_loop].
    pose proof (Remove_NoDup R x Hnd) as Hrem.
    destruct (Remove R (Some x)) as [removed R'].
    cbn [snd] in Hrem; subst R'.
    rewrite IH by (apply NoDup_map_filter; assumption).
    clear; induction R as [| e R IHR]; simpl; [reflexivity|].
    destruct (Pos.eqb (Module_this e) (Module_this x)) eqn:Heq; simpl.
    + rewrite Pos.eqb_sym, Heq; simpl; assumption.
    + rewrite Pos.eqb_sym, Heq; simpl.
      destruct (holds S (Module_this e)); simpl; rewrite IHR; reflexivity.
Qed.

Lemma Remove_cons_step (x : Obj) R e :
  snd (Remove (x :: R) (Some e)) =
  if same_module x e then R else x :: snd (Remove R (Some e)).
Proof.
  simpl; destruct (same_module x e); [reflexivity|].
  destruct (Remove_scan R e); reflexivity.
Qed.

Lemma without_first_matches_nil R : without_first_matches R [] = R.
Proof. induction R as [| x R IH]; simpl; [|rewrite IH]; reflexivity. Qed.

(** Removing the first match of [e] from the receiver and then passing over
    it with [S] pending is passing over the receiver with [e :: S]
    pending. *)
Lemma without_first_matches_Remove R e S :
  without_first_matches (snd (Remove R (Some e))) S =
  without_first_matches R (e :: S).
Proof.
  revert S; induction R as [| x R IH]; intros S; [reflexivity|].
  rewrite Remove_cons_step.
  cbn [without_first_matches holds existsb].
  unfold same_module.
  destruct (Pos.eqb (Module_this x) (Module_this e)) eqn:Hxe.
  - rewrite Pos.eqb_sym, Hxe; cbn [orb].
    rewrite Remove_cons_step; unfold same_module.
    rewrite Pos.eqb_sym, Hxe; reflexivity.
  - rewrite Pos.eqb_sym, Hxe; cbn [orb without_first_matches].
    fold (holds S (Module_this x)).
    destruct (holds S (Module_this x)) eqn:Hheld.
    + rewrite Remove_cons_step; unfold same_module.
      rewrite Pos.eqb_sym, Hxe; apply IH.
    + f_equal; apply IH.
Qed.

Lemma Remove_ModuleList_loop_one_pass S R k :
  snd (Remove_ModuleList_loop S R k) = without_first_matches R S.
Proof.
  revert R k; induction S as [| e S IH]; intros R k.
  - simpl; symmetry; apply without_first_matches_nil.
  - cbn [Remove_ModuleList_loop].
    destruct (Remove R (Some e)) as [removed R'] eqn:Hrem.
    rewrite IH, <- without_first_matches_Remove, Hrem; reflexivity.
Qed.

(** C7 (amended): [R.Remove(S)] runs over the entries of [S] and removes, for each,
    the first entry of [R] with that identity, if there is one.  It returns
    the number of entries removed from [R]; each module loses as many entries
    in [R] as it has in [S] (or all it has, if fewer), and it loses its
    first ones: what is left of [R] is what one pass over [R] from its
    first entry leaves, dropping an entry whenever [S] still has an unused
    entry for its module.  A single entry in [S] erases the first match and
    nothing else.  When no module occurs twice in [R], what is left of [R]
    is exactly its entries that are not present in [S], in their order. *)
Theorem Remove_ModuleList_removes_first_matches R S :
  fst (Remove_ModuleList R S) + length (snd (Remove_ModuleList R S)) = length R
  /\ (forall p, count_ptr p (snd (Remove_ModuleList R S))
                = count_ptr p R - count_ptr p S)
  /\ snd (Remove_ModuleList R S) = without_first_matches R S
  /\ (forall pre x post e,
         R = pre ++ x :: post ->
         holds pre (Module_this e) = false ->
         Module_this x = Module_this e ->
         Remove_ModuleList R [e] = (1, pre ++ post))
  /\ (NoDup (map Module_this R) ->
      snd (Remove_ModuleList R S) =
      filter (fun e => negb (holds S (Module_this e))) R).
Proof.
  unfold Remove_ModuleList.
  destruct (Remove_ModuleList_loop_spec S R 0) as [Hlen Hcount].
  split; [assumption|]. split; [assumption|].
  split; [apply Remove_ModuleList_loop_one_pass|]. split.
  - intros pre x post e -> Hpre Hx; cbn [Remove_ModuleList_loop Remove].
    assert (Hscan : Remove_scan (pre ++ x :: post) e = Some (pre ++ post)).
    { clear - Hpre Hx; induction pre as [| y pre IH]; simpl.
      - unfold same_module; rewrite Hx, Pos.eqb_refl; reflexivity.
      - simpl in Hpre; apply orb_false_iff in Hpre as [Hy Hpre].
        unfold same_module; rewrite Hy, IH by assumption; reflexivity. }
    rewrite Hscan; reflexivity.
  - apply Remove_ModuleList_loop_NoDup.
Qed.

(** ** [RemoveOrphans] *)

(** Erasing an entry that was the only owner of its module does not change
    the owner count of the entries after it. *)
Lemma unique_after_erase outside kept e rest x :
  unique outside (kept ++ e :: rest) e = true ->
  In x rest ->
  unique outside (kept ++ rest) x = unique outside (kept ++ e :: rest) x.
Proof.
  unfold unique, use_count; intros Hu Hx.
  apply Nat.eqb_eq in Hu.
  rewrite count_ptr_app, count_ptr_cons, Pos.eqb_refl in Hu.
  assert (Hrest : count_ptr (Module_this e) rest = 0) by lia.
  assert (Hne : Pos.eqb (Module_this e) (Module_this x) = false).
  { apply Pos.eqb_neq; intros Heq.
    apply count_ptr_zero_iff in Hrest; apply Hrest.
    rewrite Heq; apply in_map; assumption. }
  rewrite !count_ptr_app, count_ptr_cons, Hne; reflexivity.
Qed.

Lemma RemoveOrphans_loop_spec outside pos kept k :
  RemoveOrphans_loop outside kept pos k =
  (k + length (filter (unique outside (kept ++ pos)) pos),
   kept ++ filter (fun e => negb (unique outside (kept ++ pos) e)) pos).
Proof.
  revert kept k; induction pos as [| e rest IH]; intros kept k.
  - simpl; rewrite app_nil_r, Nat.add_0_r; reflexivity.
  - cbn [RemoveOrphans_loop filter].
    destruct (unique outside (kept ++ e :: rest) e) eqn:Hu; cbn [negb].
    + rewrite IH.
      rewrite (filter_ext_in (unique outside (kept ++ rest))
                             (unique outside (kept ++ e :: rest)))
        by (intros x Hx; apply unique_after_erase; assumption).
      rewrite (filter_ext_in
                 (fun x => negb (unique outside (kept ++ rest) x))
                 (fun x => negb (unique outside (kept ++ e :: rest) x)))
        by (intros x Hx; f_equal; apply unique_after_erase; assumption).
      simpl; f_equal; lia.
    + rewrite IH, <- !app_assoc; reflexivity.
Qed.

Lemma count_ptr_filter (f : Obj -> bool) p l :
  (forall e, In e l -> Module_this e = p -> f e = true) ->
  count_ptr p (filter f l) = count_ptr p l.
Proof.
  induction l as [| e l IH]; simpl; intros Hf; [reflexivity|].
  destruct (f e) eqn:Hfe.
  - rewrite !count_ptr_cons, IH; auto.
  - rewrite count_ptr_cons, IH by auto.
    destruct (Pos.eqb (Module_this e) p) eqn:Heq; [|reflexivity].
    apply Pos.eqb_eq in Heq; rewrite Hf in Hfe; auto; discriminate.
Qed.

Lemma filter_partition_length (f : Obj -> bool) l :
  length (filter f l) + length (filter (fun e => negb (f e)) l) = length l.
Proof.
  induction l as [| e l IH]; simpl; [reflexivity|].
  destruct (f e); simpl; lia.
Qed.

(** C3 (amended): [RemoveOrphans] removes exactly the entries whose shared pointer
    is [unique()], that is, whose module has one owner in all: the entry
    itself, with no holder outside the registry and no second entry of the
    registry for the same module.  All other entries stay, in their order;
    in particular every entry of a module with an outside holder stays.  The
    value returned is the number of entries removed.  When no module occurs
    twice in the registry, the entries removed are exactly those with no
    outside holder. *)
Theorem RemoveOrphans_removes_unique_entries outside l :
  snd (RemoveOrphans outside l) = filter (fun e => negb (unique outside l e)) l
  /\ fst (RemoveOrphans outside l) + length (snd (RemoveOrphans outside l))
     = length l
  /\ (forall p, 0 < outside p ->
                count_ptr p (snd (RemoveOrphans outside l)) = count_ptr p l)
  /\ (NoDup (map Module_this l) ->
      snd (RemoveOrphans outside l) =
      filter (fun e => negb (outside (Module_this e) =? 0)) l).
Proof.
  unfold RemoveOrphans; rewrite RemoveOrphans_loop_spec; cbn [fst snd app].
  split; [reflexivity|]. split; [apply filter_partition_length|]. split.
  - intros p Hout; apply count_ptr_filter; intros e He <-.
    unfold unique, use_count.
    apply negb_true_iff, Nat.eqb_neq; intros Hone.
    assert (Hin : count_ptr (Module_this e) l = 0) by lia.
    apply count_ptr_zero_iff in Hin; apply Hin, in_map; assumption.
  - intros Hnd; apply filter_ext_in; intros e He; f_equal.
    unfold unique, use_count.
    assert (Hone : count_ptr (Module_this e) l = 1).
    { unfold count_ptr.
      apply (proj1 (NoDup_count_occ' Pos.eq_dec (map Module_this l)) Hnd).
      apply in_map; assumption. }
    rewrite Hone.
    destruct (outside (Module_this e)); reflexivity.
Qed.

End RegistryProperties.

(** * Properties of the broadcast queries *)

Section BroadcastProperties.

Context {VT : ValueTypes} {MI : ModuleInterface}.

Local Abbreviation Obj := (ModuleObject ModuleData).

Implicit Types (pos pre post m_modules : collection ModuleData)
         (sc : SymbolContext) (name : ConstString) (st : FindTypes_state).

(** The three queries that return [sc_list.GetSize()] return the size of
    the whole list after the call, whatever the registry holds. *)
Lemma FindFunctions_returns_GetSize m_modules name mask symbols inlines
      append sc_list :
  fst (FindFunctions m_modules name mask symbols inlines append sc_list) =
  uint32 (List_GetSize
            (snd (FindFunctions m_modules name mask symbols inlines append
                                sc_list))).
Proof. reflexivity. Qed.

(** On an empty registry nothing is added; [FindFunctions] with [append]
    still answers with the size of the caller's list, where
    [FindSymbolsWithNameAndType] answers [0]. *)
Lemma FindFunctions_empty_registry name mask symbols inlines (x : SymbolContext) :
  FindFunctions [] name mask symbols inlines true [x] = (1%N, [x]).
Proof. reflexivity. Qed.

Lemma FindSymbolsWithNameAndType_empty_registry name symbol_type
      (x : SymbolContext) :
  FindSymbolsWithNameAndType [] name symbol_type [x] true = (0%N, [x]).
Proof. reflexivity. Qed.

(** ** [FindTypes] *)

Lemma uint32_add_idemp (a b : N) : uint32 (uint32 a + b) = uint32 (a + b).
Proof. unfold uint32; apply N.Div0.add_mod_idemp_l. Qed.

Lemma sum_counts_snoc (calls : list (Obj * N)) (call : Obj * N) :
  sum_counts (calls ++ [call]) = (sum_counts calls + snd call)%N.
Proof.
  induction calls as [| c calls IH]; simpl; [lia|].
  rewrite IH; lia.
Qed.

(** Once the running total has reached [max_matches] after some module, the
    modules behind it play no part. *)
Lemma FindTypes_loop_stops sc name max_matches pre post st :
  pre <> [] ->
  (max_matches <= total_matches (FindTypes_loop sc name max_matches pre st))%N ->
  FindTypes_loop sc name max_matches (pre ++ post) st =
  FindTypes_loop sc name max_matches pre st.
Proof.
  revert st; induction pre as [| e pre IH]; intros st Hne Hmax; [congruence|].
  cbn [FindTypes_loop app] in *.
  set (st1 := if FindTypes_wants sc e then _ else st) in *.
  destruct (max_matches <=? total_matches st1)%N eqn:Hstop; [reflexivity|].
  destruct pre as [| e' pre'].
  - simpl in Hmax; apply N.leb_gt in Hstop; lia.
  - apply IH; [discriminate | assumption].
Qed.

Lemma FindTypes_loop_asked_wanted sc name max_matches pos st :
  Forall (fun call => FindTypes_wants sc (fst call) = true) (asked st) ->
  Forall (fun call => FindTypes_wants sc (fst call) = true)
         (asked (FindTypes_loop sc name max_matches pos st)).
Proof.
  revert st; induction pos as [| e pos IH]; intros st Hst; [assumption|].
  cbn [FindTypes_loop].
  destruct (FindTypes_wants sc e) eqn:Hw.
  - destruct (Module_FindTypes e sc name true max_matches (types st))
      as [n types'].
    assert (Hst' : Forall (fun call => FindTypes_wants sc (fst call) = true)
                          (asked st ++ [(e, n)])).
    { apply Forall_app; split; [assumption|]. constructor; [assumption|constructor]. }
    match goal with |- context [if ?b then _ else _] => destruct b end;
      [assumption | apply IH; assumption].
  - match goal with |- context [if ?b then _ else _] => destruct b end;
      [assumption | apply IH; assumption].
Qed.

Lemma FindTypes_loop_total sc name max_matches pos st :
  total_matches st = uint32 (sum_counts (asked st)) ->
  total_matches (FindTypes_loop sc name max_matches pos st) =
  uint32 (sum_counts (asked (FindTypes_loop sc name max_matches pos st))).
Proof.
  revert st; induction pos as [| e pos IH]; intros st Hst; [assumption|].
  cbn [FindTypes_loop].
  destruct (FindTypes_wants sc e) eqn:Hw.
  - destruct (Module_FindTypes e sc name true max_matches (types st))
      as [n types'].
    match goal with |- context [if ?b then _ else _] => destruct b end.
    + cbn [total_matches asked].
      rewrite sum_counts_snoc, Hst, uint32_add_idemp; reflexivity.
    + apply IH; cbn [total_matches asked].
      rewrite sum_counts_snoc, Hst, uint32_add_idemp; reflexivity.
  - match goal with |- context [if ?b then _ else _] => destruct b end;
      [assumption | apply IH; assumption].
Qed.

(** The loop on a registry with one more module at its end: the scan of the
    registry without it, then the stop test, then that module's turn. *)
Lemma FindTypes_loop_snoc sc name max_matches pos (e : Obj) st :
  FindTypes_loop sc name max_matches (pos ++ [e]) st =
  if match pos with
     | [] => false
     | _ :: _ =>
         (max_matches
          <=? total_matches (FindTypes_loop sc name max_matches pos st))%N
     end
  then FindTypes_loop sc name max_matches pos st
  else if FindTypes_wants sc e then
         mkFindTypes
           (uint32
              (total_matches (FindTypes_loop sc name max_matches pos st)
               + fst (Module_FindTypes
                        e sc name true max_matches
                        (types (FindTypes_loop sc name max_matches pos st)))))
           (snd (Module_FindTypes
                   e sc name true max_matches
                   (types (FindTypes_loop sc name max_matches pos st))))
           (asked (FindTypes_loop sc name max_matches pos st)
              ++ [(e, fst (Module_FindTypes
                             e sc name true max_matches
                             (types (FindTypes_loop sc name max_matches pos
                                                    st))))])
       else FindTypes_loop sc name max_matches pos st.
Proof.
  revert st; induction pos as [| x pos IH]; intros st.
  - cbn [app FindTypes_loop].
    destruct (FindTypes_wants sc e).
    + destruct (Module_FindTypes e sc name true max_matches (types st))
        as [n types'].
      cbn [fst snd].
      match goal with |- context [if ?b then _ else _] => destruct b end;
        reflexivity.
    + match goal with |- context [if ?b then _ else _] => destruct b end;
        reflexivity.
  - cbn [app FindTypes_loop].
    set (st1 := if FindTypes_wants sc x then _ else st).
    destruct (max_matches <=? total_matches st1)%N eqn:Hstop.
    + rewrite Hstop; reflexivity.
    + rewrite IH.
      destruct pos as [| y pos']; [| reflexivity].
      cbn [FindTypes_loop]; rewrite Hstop; reflexivity.
Qed.

(** C8 (amended): [FindTypes] keeps its running total in a [uint32_t], so the total is
    the sum of the counts the asked modules returned, modulo [2^32] (the sum
    itself whenever that fits 32 bits), and this is the value returned.  The
    modules are taken in order.  The stop test is made after each module, on
    that counter: once it has reached [max_matches] no further module is
    asked.  Until then, each module that passes the affinity test (the
    symbol context names no module, or names this one) is asked, with the
    type list as the modules before left it; its count is added to the
    total and the list it leaves becomes the type list; a module that fails
    the test is passed over.  So when the symbol context names a module,
    every module asked is that one. *)
Theorem FindTypes_short_circuit_affinity_total m_modules sc name append
        max_matches (types0 : list TypeSP) :
  (forall pre post,
      m_modules = pre ++ post -> pre <> [] ->
      (max_matches
       <= total_matches (FindTypes pre sc name append max_matches types0))%N ->
      FindTypes m_modules sc name append max_matches types0 =
      FindTypes pre sc name append max_matches types0)
  /\ (forall p,
         get (SymbolContext_module_sp sc) = Some p ->
         Forall (fun call => Module_this (fst call) = p)
                (asked (FindTypes m_modules sc name append max_matches types0)))
  /\ total_matches (FindTypes m_modules sc name append max_matches types0) =
     uint32 (sum_counts
               (asked (FindTypes m_modules sc name append max_matches types0)))
  /\ ((sum_counts
         (asked (FindTypes m_modules sc name append max_matches types0))
       < 2 ^ 32)%N ->
      total_matches (FindTypes m_modules sc name append max_matches types0) =
      sum_counts (asked (FindTypes m_modules sc name append max_matches types0)))
  /\ FindTypes [] sc name append max_matches types0
     = mkFindTypes 0 (if append then types0 else []) []
  /\ (forall pre (e : Obj),
         m_modules = pre ++ [e] ->
         pre = []
         \/ (total_matches (FindTypes pre sc name append max_matches types0)
             < max_matches)%N ->
         FindTypes_wants sc e = true ->
         FindTypes m_modules sc name append max_matches types0
         = mkFindTypes
             (uint32
                (total_matches
                   (FindTypes pre sc name append max_matches types0)
                 + fst (Module_FindTypes
                          e sc name true max_matches
                          (types (FindTypes pre sc name append max_matches
                                            types0)))))
             (snd (Module_FindTypes
                     e sc name true max_matches
                     (types (FindTypes pre sc name append max_matches
                                       types0))))
             (asked (FindTypes pre sc name append max_matches types0)
                ++ [(e, fst (Module_FindTypes
                               e sc name true max_matches
                               (types (FindTypes pre sc name append
                                                 max_matches types0))))]))
  /\ (forall pre (e : Obj),
         m_modules = pre ++ [e] ->
         pre = []
         \/ (total_matches (FindTypes pre sc name append max_matches types0)
             < max_matches)%N ->
         FindTypes_wants sc e = false ->
         FindTypes m_modules sc name append max_matches types0
         = FindTypes pre sc name append max_matches types0)
  /\ (forall e : Obj,
         FindTypes_wants sc e = true
         <-> (get (SymbolContext_module_sp sc) = None
              \/ get (SymbolContext_module_sp sc) = Some (Module_this e))).
Proof.
  assert (Htotal :
            total_matches (FindTypes m_modules sc name append max_matches types0)
            = uint32 (sum_counts
                        (asked (FindTypes m_modules sc name append max_matches
                                          types0)))).
  { unfold FindTypes; apply FindTypes_loop_total; reflexivity. }
  assert (Hcontinue :
            forall pre,
              pre = []
              \/ (total_matches (FindTypes pre sc name append max_matches
                                           types0) < max_matches)%N ->
              match pre with
              | [] => false
              | _ :: _ =>
                  (max_matches
                   <=? total_matches
                         (FindTypes pre sc name append max_matches types0))%N
              end = false).
  { intros pre [-> | Hlt]; [reflexivity|].
    destruct pre; [reflexivity | apply N.leb_gt; assumption]. }
  split; [| split; [| split; [| split; [| split; [| split; [| split]]]]]].
  - intros pre post -> Hne Hmax; unfold FindTypes in *.
    apply FindTypes_loop_stops; assumption.
  - intros p Hp.
    eapply Forall_impl;
      [| unfold FindTypes; apply FindTypes_loop_asked_wanted; constructor].
    intros call Hw; unfold FindTypes_wants in Hw; rewrite Hp in Hw.
    apply Pos.eqb_eq in Hw; congruence.
  - exact Htotal.
  - intros Hfit; rewrite Htotal; unfold uint32; apply N.mod_small; assumption.
  - unfold FindTypes; destruct append; reflexivity.
  - intros pre e -> Hgo Hwant.
    specialize (Hcontinue pre Hgo); unfold FindTypes in *.
    rewrite FindTypes_loop_snoc, Hcontinue, Hwant; reflexivity.
  - intros pre e -> Hgo Hwant.
    specialize (Hcontinue pre Hgo); unfold FindTypes in *.
    rewrite FindTypes_loop_snoc, Hcontinue, Hwant; reflexivity.
  - intros e; unfold FindTypes_wants.
    destruct (get (SymbolContext_module_sp sc)) as [p |].
    + rewrite Pos.eqb_eq; split.
      * intros ->; right; reflexivity.
      * intros [Hnone | Hsome]; congruence.
    + split; [left; reflexivity | reflexivity].
Qed.

End BroadcastProperties.

(** * Properties of the shared module cache *)

Section SharedCacheProperties.

Context {VT : ValueTypes} {MI : ModuleInterface}.

Local Abbreviation Obj := (ModuleObject ModuleData).
Local Abbreviation registry := (collection ModuleData).
Local Abbreviation out_module := (option (ModuleSP ModuleData)).

Implicit Types (module_spec : ModuleSpec) (shared l : registry)
         (old : out_module) (did : option bool) (st : SharedModules).

(** The modules of [l] that match the spec, in order. *)
Local Abbreviation matching module_spec l :=
  (filter (fun m : Obj => Module_MatchesModuleSpec m module_spec) l).

Lemma FindModules_fold module_spec l acc :
  fold_left
    (fun matching (pos : Obj) =>
       if Module_MatchesModuleSpec pos module_spec
       then Append matching (Some pos) else matching) l acc
  = acc ++ matching module_spec l.
Proof.
  revert acc; induction l as [| e l IH]; intros acc; simpl.
  - rewrite app_nil_r; reflexivity.
  - rewrite IH; destruct (Module_MatchesModuleSpec e module_spec); simpl;
      [rewrite <- app_assoc|]; reflexivity.
Qed.

(** [FindModules] into an empty list yields the matching modules and their
    number. *)
Lemma FindModules_nil module_spec l :
  FindModules l module_spec [] =
  (length (matching module_spec l), matching module_spec l).
Proof.
  unfold FindModules, GetSize; rewrite FindModules_fold; simpl.
  rewrite Nat.sub_0_r; reflexivity.
Qed.

Lemma Remove_ModuleList_loop_snd (S R : registry) k :
  snd (Remove_ModuleList_loop S R k) = snd (Remove_ModuleList_loop S R 0).
Proof.
  revert R k; induction S as [| e S IH]; intros R k; [reflexivity|].
  cbn [Remove_ModuleList_loop].
  destruct (Remove R (Some e)) as [removed R'].
  rewrite IH; symmetry; rewrite IH; reflexivity.
Qed.

Lemma Remove_ModuleList_cons (R S : registry) (e : Obj) :
  snd (Remove_ModuleList R (e :: S)) =
  snd (Remove_ModuleList (snd (Remove R (Some e))) S).
Proof.
  unfold Remove_ModuleList; cbn [Remove_ModuleList_loop].
  destruct (Remove R (Some e)) as [removed R']; cbn [snd].
  apply Remove_ModuleList_loop_snd.
Qed.

Lemma record_old_if_unset_twice old (m1 m2 : Obj) :
  record_old_if_unset (record_old_if_unset old m1) m2 =
  record_old_if_unset old m1.
Proof. destruct old as [[x |] |]; reflexivity. Qed.

Lemma record_first_after old (m : Obj) (retired : registry) :
  record_first (record_old_if_unset old m) retired = record_old_if_unset old m.
Proof.
  destruct retired as [| m2 retired]; [reflexivity|].
  apply record_old_if_unset_twice.
Qed.

(** Without an identifier, the scan retires every candidate that fails the
    modification-time test and goes on with the next one. *)
Lemma GetSharedModule_scan_retires module_file_spec (stale tail : registry)
      old shared :
  Forall (fun m => same_modification_time module_file_spec m = false) stale ->
  GetSharedModule_scan None module_file_spec (stale ++ tail) old shared =
  GetSharedModule_scan None module_file_spec tail
                       (record_first old stale)
                       (snd (Remove_ModuleList shared stale)).
Proof.
  intros Hstale; revert old shared.
  induction Hstale as [| m stale Hm Hstale IH]; intros old shared.
  - reflexivity.
  - cbn [app GetSharedModule_scan]; rewrite Hm, IH.
    rewrite record_first_after, Remove_ModuleList_cons; reflexivity.
Qed.

(** ** Two calls in a row *)

Lemma GetSharedModule_search_with_uuid module_spec (u : UUID) old l :
  GetUUIDPtr module_spec = Some u ->
  GetSharedModule_search module_spec old l =
  match matching module_spec l with
  | [] => (scan_end, mkScan None old l)
  | module :: _ => (scan_break, mkScan (Some module) old l)
  end.
Proof.
  intros Hu; unfold GetSharedModule_search.
  rewrite FindModules_nil, Hu.
  destruct (matching module_spec l) as [| c rest]; reflexivity.
Qed.

(** With a valid identifier, a cache that holds a matching module answers
    with the first one and is left as it was. *)
Lemma GetSharedModule_uuid_hit module_spec paths old did st (u : UUID)
      (module : Obj) (rest : registry) :
  GetUUIDPtr module_spec = Some u ->
  matching module_spec (g_shared_module_list st) = module :: rest ->
  GetSharedModule module_spec paths old did false st =
  mkResult None (Some module) (option_map (fun _ => None) old)
           (option_map (fun _ => false) did) st.
Proof.
  intros Hu Hhit; unfold GetSharedModule; cbn [negb].
  rewrite (GetSharedModule_search_with_uuid _ u) by assumption.
  rewrite Hhit; destruct st; reflexivity.
Qed.

Lemma GetSharedModule_uuid_miss module_spec paths old did st (u : UUID) :
  GetUUIDPtr module_spec = Some u ->
  matching module_spec (g_shared_module_list st) = [] ->
  GetSharedModule module_spec paths old did false st =
  GetSharedModule_create module_spec (option_map (fun _ => None) old)
                         (option_map (fun _ => false) did)
                         (g_shared_module_list st) (next_address st).
Proof.
  intros Hu Hmiss; unfold GetSharedModule; cbn [negb].
  rewrite (GetSharedModule_search_with_uuid _ u) by assumption.
  rewrite Hmiss; reflexivity.
Qed.

Lemma GetSharedModule_locate_outcome module_spec old did l next (u : UUID)
      (m : Obj) :
  GetUUIDPtr module_spec = Some u ->
  res_error (GetSharedModule_locate module_spec old did l next) = None ->
  res_module_sp (GetSharedModule_locate module_spec old did l next) = Some m ->
  g_shared_module_list
    (res_shared (GetSharedModule_locate module_spec old did l next))
  = l ++ [m]
  \/ (In m l /\
      g_shared_module_list
        (res_shared (GetSharedModule_locate module_spec old did l next)) = l).
Proof.
  intros Hu; unfold GetSharedModule_locate.
  rewrite FindModules_nil.
  set (file_spec := Symbols_LocateExecutableObjectFile module_spec).
  set (platform_module_spec := mkModuleSpec file_spec file_spec _ _).
  change (GetUUIDPtr platform_module_spec) with (GetUUIDPtr module_spec).
  rewrite Hu.
  destruct (negb (FileSpec_eqb file_spec (m_file module_spec)));
    [| cbn; discriminate].
  destruct (negb (FileSpec_Exists file_spec)); [cbn; discriminate|].
  destruct (matching platform_module_spec l) as [| c rest] eqn:Hfound.
  - cbn.
    destruct (Module_GetObjectFile
                (mkModule next (Module_new platform_module_spec))); cbn.
    + intros _ Hm; injection Hm as <-; left; reflexivity.
    + repeat match goal with
             | |- context [if ?b then _ else _] => destruct b
             end; discriminate.
  - cbn; intros _ Hm; injection Hm as <-; right; split; [|reflexivity].
    assert (Hin : In c (matching platform_module_spec l))
      by (rewrite Hfound; left; reflexivity).
    apply filter_In in Hin; tauto.
Qed.

Lemma GetSharedModule_create_outcome module_spec old did l next (u : UUID)
      (m : Obj) :
  GetUUIDPtr module_spec = Some u ->
  res_error (GetSharedModule_create module_spec old did l next) = None ->
  res_module_sp (GetSharedModule_create module_spec old did l next) = Some m ->
  g_shared_module_list
    (res_shared (GetSharedModule_create module_spec old did l next))
  = l ++ [m]
  \/ (In m l /\
      g_shared_module_list
        (res_shared (GetSharedModule_create module_spec old did l next)) = l).
Proof.
  intros Hu; unfold GetSharedModule_create; rewrite Hu.
  destruct (Module_GetObjectFile (mkModule next (Module_new module_spec)));
    [| apply (GetSharedModule_locate_outcome _ _ _ _ _ u); assumption].
  destruct (negb (UUID_eqb u (Module_GetUUID
                                (mkModule next (Module_new module_spec)))));
    [apply (GetSharedModule_locate_outcome _ _ _ _ _ u); assumption|].
  cbn; intros _ Hm; injection Hm as <-; left; reflexivity.
Qed.

(** With a valid identifier in the spec, if a call succeeds and the module
    it returns matches the spec, the next call with that spec returns the
    same module, reports it as not newly created, and leaves the cache as
    the first call left it.  A module found in the cache by the first search
    and a module from the direct construction, which is checked against the
    identifier, both match the spec. *)
Theorem GetSharedModule_twice_same_module module_spec paths1 paths2 old1 old2
        did1 did2 st (u : UUID) (m : Obj) :
  GetUUIDPtr module_spec = Some u ->
  res_error (GetSharedModule module_spec paths1 old1 did1 false st) = None ->
  res_module_sp (GetSharedModule module_spec paths1 old1 did1 false st)
  = Some m ->
  Module_MatchesModuleSpec m module_spec = true ->
  GetSharedModule module_spec paths2 old2 did2 false
                  (res_shared
                     (GetSharedModule module_spec paths1 old1 did1 false st))
  = mkResult None (Some m) (option_map (fun _ => None) old2)
             (option_map (fun _ => false) did2)
             (res_shared
                (GetSharedModule module_spec paths1 old1 did1 false st)).
Proof.
  intros Hu Herr Hm Hmatch.
  destruct (matching module_spec (g_shared_module_list st)) as [| c rest]
    eqn:Hfound.
  - rewrite (GetSharedModule_uuid_miss module_spec paths1 old1 did1 st u Hu
                                        Hfound) in *.
    destruct (GetSharedModule_create_outcome _ _ _ _ _ u m Hu Herr Hm)
      as [Happended | [Hin _]].
    + apply (GetSharedModule_uuid_hit _ _ _ _ _ u m []); [assumption|].
      rewrite Happended, filter_app, Hfound; cbn.
      rewrite Hmatch; reflexivity.
    + assert (Hin' : In m (matching module_spec (g_shared_module_list st)))
        by (apply filter_In; split; assumption).
      rewrite Hfound in Hin'; contradiction.
  - rewrite (GetSharedModule_uuid_hit module_spec paths1 old1 did1 st u c
                                       rest Hu Hfound) in *.
    cbn in Hm; injection Hm as ->; cbn [res_shared].
    apply (GetSharedModule_uuid_hit _ _ _ _ _ u m rest); assumption.
Qed.

(** ** The initial search, as [GetSharedModule] runs it *)

(** C4 (amended): [GetSharedModule] with [always_create] false, on the candidates
    that [FindModules] finds in the shared cache for the spec.  With a valid
    identifier in the spec the first candidate is returned at once and
    nothing changes.  Without one, the first candidate whose recorded
    modification time equals the valid modification time of the spec's path
    is returned, with no further change to the cache; every candidate before
    it failed that test (for a path with a valid modification time: its time
    differs) and has been removed from the shared cache, the scan going on
    with the next candidate.  Of the candidates removed only the first is
    recorded as the prior instance, and only when the caller supplied the
    old-module output.  When every candidate fails the test, all are removed
    and the call goes on to construct a module. *)
Theorem GetSharedModule_initial_search module_spec paths old did st :
  (forall (u : UUID) (c : Obj) (rest : registry),
      GetUUIDPtr module_spec = Some u ->
      snd (FindModules (g_shared_module_list st) module_spec []) = c :: rest ->
      GetSharedModule module_spec paths old did false st
      = mkResult None (Some c) (option_map (fun _ => None) old)
                 (option_map (fun _ => false) did) st)
  /\ (forall (stale : registry) (c : Obj) (rest : registry),
         GetUUIDPtr module_spec = None ->
         snd (FindModules (g_shared_module_list st) module_spec [])
         = stale ++ c :: rest ->
         Forall (fun m => same_modification_time (m_file module_spec) m = false)
                stale ->
         same_modification_time (m_file module_spec) c = true ->
         GetSharedModule module_spec paths old did false st
         = mkResult None (Some c)
                    (record_first (option_map (fun _ => None) old) stale)
                    (option_map (fun _ => false) did)
                    (mkShared
                       (snd (Remove_ModuleList (g_shared_module_list st) stale))
                       (next_address st)))
  /\ (GetUUIDPtr module_spec = None ->
      Forall (fun m => same_modification_time (m_file module_spec) m = false)
             (snd (FindModules (g_shared_module_list st) module_spec [])) ->
      GetSharedModule module_spec paths old did false st
      = GetSharedModule_create
          module_spec
          (record_first (option_map (fun _ => None) old)
                        (snd (FindModules (g_shared_module_list st)
                                          module_spec [])))
          (option_map (fun _ => false) did)
          (snd (Remove_ModuleList
                  (g_shared_module_list st)
                  (snd (FindModules (g_shared_module_list st) module_spec []))))
          (next_address st))
  /\ (forall (module : Obj),
         FileSpec_bool (m_file module_spec) = true ->
         TimeValue_IsValid (FileSpec_GetModificationTime (m_file module_spec))
         = true ->
         same_modification_time (m_file module_spec) module =
         TimeValue_eqb (FileSpec_GetModificationTime (m_file module_spec))
                       (Module_GetModificationTime module))
  /\ (forall (first : Obj) (later : registry),
         record_first None (first :: later) = None
         /\ record_first (Some None) (first :: later) = Some (Some first)
         /\ forall prior : Obj,
             record_first (Some (Some prior)) (first :: later)
             = Some (Some prior)).
Proof.
  rewrite FindModules_nil; cbn [snd].
  set (l := g_shared_module_list st).
  set (old0 := option_map (fun _ => @None Obj) old).
  set (did0 := option_map (fun _ => false) did).
  assert (Hsearch :
            GetUUIDPtr module_spec = None ->
            forall stale tail : registry,
              matching module_spec l = stale ++ tail ->
              Forall (fun m => same_modification_time (m_file module_spec) m
                               = false) stale ->
              GetSharedModule_search module_spec old0 l
              = GetSharedModule_scan
                  None (m_file module_spec) tail (record_first old0 stale)
                  (snd (Remove_ModuleList l stale))).
  { intros Hu stale tail Hsplit Hstale.
    unfold GetSharedModule_search; rewrite FindModules_nil, Hu, firstn_all.
    destruct (matching module_spec l) as [| c0 rest0] eqn:Hcands.
    - destruct stale; [| discriminate]. destruct tail; [| discriminate].
      reflexivity.
    - cbn [length Nat.ltb Nat.leb]; rewrite Hsplit.
      apply GetSharedModule_scan_retires; assumption. }
  split; [| split; [| split; [| split]]].
  - intros u c rest Hu Hcands.
    apply (GetSharedModule_uuid_hit _ _ _ _ _ u c rest); assumption.
  - intros stale c rest Hu Hcands Hstale Hfresh.
    unfold GetSharedModule; cbn [negb]; fold l; fold old0; fold did0.
    rewrite (Hsearch Hu stale (c :: rest) Hcands Hstale).
    cbn [GetSharedModule_scan]; rewrite Hfresh; reflexivity.
  - intros Hu Hstale.
    unfold GetSharedModule; cbn [negb]; fold l; fold old0; fold did0.
    rewrite (Hsearch Hu (matching module_spec l) []
                     (eq_sym (app_nil_r _)) Hstale).
    reflexivity.
  - intros module Hset Hvalid; unfold same_modification_time.
    rewrite Hset, Hvalid; reflexivity.
  - intros first later; repeat split.
Qed.

End SharedCacheProperties.

(** * The operations at work in the concrete world *)

Import Scenario.

(** C1 (the code departs from the claim): on a registry of two modules that
    contribute one result each, called with [append = true] and a list that
    already holds one result, [FindFunctions], [FindCompileUnits] and
    [ResolveSymbolContextsForFileSpec] add two results and return [3], the
    size of the whole list.  [FindSymbolsWithNameAndType], on the same
    input, returns [2], the number of results it added. *)
Theorem FindFunctions_returns_size_of_whole_list :
  FindFunctions [module_A; module_B] "main"%string 0%N true true true
                [any_context]
  = (3%N, [any_context] ++ [context_of module_A; context_of module_B])
  /\ FindCompileUnits [module_A; module_B] "main.c"%string true [any_context]
     = (3%N, [any_context] ++ [context_of module_A; context_of module_B])
  /\ ResolveSymbolContextsForFileSpec [module_A; module_B] "main.c"%string
                                      0%N true 0%N [any_context]
     = (3%N, [any_context] ++ [context_of module_A; context_of module_B])
  /\ FindSymbolsWithNameAndType [module_A; module_B] "main"%string 0%N
                                [any_context] true
     = (2%N, [any_context] ++ [context_of module_A; context_of module_B]).
Proof. repeat split. Qed.

Lemma GetModuleAtIndex_in_and_out_of_range_witness :
  ((1 < N.of_nat (length [module_A; module_B]))%N /\
   exists e, nth_error [module_A; module_B] (N.to_nat 1) = Some e /\
             GetModuleAtIndex [module_A; module_B] 1 = Some e /\
             GetModulePointerAtIndex [module_A; module_B] 1
             = Some (Module_this e))
  /\
  ((N.of_nat (length [module_A; module_B]) <= 2)%N /\
   GetModuleAtIndex [module_A; module_B] 2 = None /\
   GetModulePointerAtIndex [module_A; module_B] 2 = None).
Proof.
  split.
  - split; [reflexivity|].
    apply (proj1 (GetModuleAtIndex_in_and_out_of_range [module_A; module_B] 1)).
    reflexivity.
  - split; [discriminate|].
    apply (proj2 (GetModuleAtIndex_in_and_out_of_range [module_A; module_B] 2)).
    discriminate.
Defined.

Lemma AppendIfNeeded_times_idempotent_witness :
  (~ In (Module_this module_B) (map Module_this [module_A]) /\
   AppendIfNeeded_times 3 [module_A] (Some module_B)
   = ([true; false; false], [module_A; module_B]))
  /\
  (In (Module_this module_A) (map Module_this [module_A]) /\
   AppendIfNeeded_times 3 [module_A] (Some module_A)
   = ([false; false; false], [module_A])).
Proof.
  assert (Hfresh : ~ In (Module_this module_B) (map Module_this [module_A])).
  { simpl; intros [Heq | []]; discriminate. }
  assert (Hheld : In (Module_this module_A) (map Module_this [module_A])).
  { simpl; left; reflexivity. }
  split; split; try assumption.
  - apply (proj1 (AppendIfNeeded_times_idempotent [module_A] module_B 2)).
    exact Hfresh.
  - apply (proj2 (AppendIfNeeded_times_idempotent [module_A] module_A 3)).
    exact Hheld.
Defined.

(** C2 as stated fails on a registry that already holds the module: two
    calls with [module_A] on the registry [[module_A]] both return [false]
    and the length does not grow. *)
Lemma AppendIfNeeded_times_already_held :
  fst (AppendIfNeeded_times 2 [module_A] (Some module_A)) <> [true; false]
  /\ length (snd (AppendIfNeeded_times 2 [module_A] (Some module_A)))
     <> S (length [module_A]).
Proof. split; discriminate. Qed.

(** C6 as stated fails on a null [Append]: one [Append] call, no [Remove],
    and the length is still the initial one. *)
Lemma run_calls_null_Append :
  length (snd (run_calls [CallAppend None] [module_A]))
  + fst (run_calls [CallAppend None] [module_A])
  <> length [module_A]
     + count_calls (@is_Append Data) [CallAppend None].
Proof. discriminate. Qed.

Lemma Remove_ModuleList_removes_first_matches_witness :
  (holds [module_B] (Module_this module_A) = false
   /\ Module_this module_A = Module_this module_A
   /\ Remove_ModuleList ([module_B] ++ module_A :: [module_C; module_A])
                        [module_A]
      = (1, [module_B] ++ [module_C; module_A]))
  /\ (NoDup (map Module_this [module_A; module_B; module_C])
      /\ snd (Remove_ModuleList [module_A; module_B; module_C]
                                [module_C; module_A])
         = [module_B]).
Proof.
  assert (Hnd : NoDup (map Module_this [module_A; module_B; module_C])).
  { simpl; repeat constructor; simpl; intuition discriminate. }
  destruct (Remove_ModuleList_removes_first_matches
              ([module_B] ++ module_A :: [module_C; module_A]) [module_A])
    as (_ & _ & _ & Hfirst & _).
  destruct (Remove_ModuleList_removes_first_matches
              [module_A; module_B; module_C] [module_C; module_A])
    as (_ & _ & _ & _ & Hdistinct).
  split.
  - split; [reflexivity|]. split; [reflexivity|].
    apply (Hfirst [module_B] module_A [module_C; module_A] module_A);
      reflexivity.
  - split; [exact Hnd | exact (Hdistinct Hnd)].
Defined.

(** C7 as stated fails when the receiver holds a module twice: after
    [R.Remove(S)] with [R = [module_A; module_A]] and [S = [module_A]], one
    entry was removed and [R] still holds an entry that is present in
    [S]. *)
Lemma Remove_ModuleList_leaves_duplicate :
  Remove_ModuleList [module_A; module_A] [module_A] = (1, [module_A])
  /\ exists e, In e (snd (Remove_ModuleList [module_A; module_A] [module_A]))
               /\ holds [module_A] (Module_this e) = true.
Proof.
  split; [reflexivity|].
  exists module_A; split; [left|]; reflexivity.
Qed.

Lemma RemoveOrphans_removes_unique_entries_witness :
  (0 < holder_of_B 2%positive /\
   count_ptr 2%positive
             (snd (RemoveOrphans holder_of_B [module_A; module_B; module_C]))
   = count_ptr 2%positive [module_A; module_B; module_C])
  /\
  (NoDup (map Module_this [module_A; module_B; module_C]) /\
   snd (RemoveOrphans holder_of_B [module_A; module_B; module_C])
   = filter (fun e => negb (holder_of_B (Module_this e) =? 0))
            [module_A; module_B; module_C]).
Proof.
  assert (Hnd : NoDup (map Module_this [module_A; module_B; module_C])).
  { simpl; repeat constructor; simpl; intuition discriminate. }
  destruct (RemoveOrphans_removes_unique_entries
              holder_of_B [module_A; module_B; module_C])
    as (_ & _ & Hheld & Hnodup).
  split; split.
  - unfold holder_of_B; simpl; lia.
  - apply Hheld; unfold holder_of_B; simpl; lia.
  - exact Hnd.
  - apply Hnodup; exact Hnd.
Defined.

(** C3 as stated fails when the registry holds a module twice: neither
    entry of [[module_A; module_A]] has a holder outside the registry, and
    [RemoveOrphans] removes none of them. *)
Lemma RemoveOrphans_keeps_duplicates :
  no_holder (Module_this module_A) = 0
  /\ RemoveOrphans no_holder [module_A; module_A] = (0, [module_A; module_A]).
Proof. split; reflexivity. Qed.

Lemma FindTypes_short_circuit_affinity_total_witness :
  FindTypes [module_A; module_B; module_C] any_context "T"%string true 2 []
  = FindTypes [module_A] any_context "T"%string true 2 []
  /\ Forall (fun call => Module_this (fst call) = 2%positive)
            (asked (FindTypes [module_A; module_B; module_C]
                              (context_of module_B) "T"%string true 9 []))
  /\ total_matches (FindTypes [module_A; module_B; module_C] any_context
                              "T"%string true 9 [])
     = sum_counts (asked (FindTypes [module_A; module_B; module_C] any_context
                                    "T"%string true 9 []))
  /\ FindTypes ([module_A] ++ [module_B]) any_context "T"%string true 9 []
     = mkFindTypes 3 [10; 11; 20]%N [(module_A, 2%N); (module_B, 1%N)]
  /\ FindTypes ([module_A] ++ [module_B]) (context_of module_A) "T"%string
               true 9 []
     = FindTypes [module_A] (context_of module_A) "T"%string true 9 [].
Proof.
  destruct (FindTypes_short_circuit_affinity_total
              (MI := interface) [module_A; module_B; module_C] any_context
              "T"%string true 2%N []) as (Hstop & _).
  destruct (FindTypes_short_circuit_affinity_total
              (MI := interface) [module_A; module_B; module_C]
              (context_of module_B) "T"%string true 9%N [])
    as (_ & Haffinity & _).
  destruct (FindTypes_short_circuit_affinity_total
              (MI := interface) [module_A; module_B; module_C] any_context
              "T"%string true 9%N []) as (_ & _ & _ & Hfits & _).
  destruct (FindTypes_short_circuit_affinity_total
              (MI := interface) ([module_A] ++ [module_B]) any_context
              "T"%string true 9%N [])
    as (_ & _ & _ & _ & _ & Hasked & _).
  destruct (FindTypes_short_circuit_affinity_total
              (MI := interface) ([module_A] ++ [module_B])
              (context_of module_A) "T"%string true 9%N [])
    as (_ & _ & _ & _ & _ & _ & Hpassed & _).
  split; [| split; [| split; [| split]]].
  - apply (Hstop [module_A] [module_B; module_C]);
      [reflexivity | discriminate | vm_compute; discriminate].
  - apply Haffinity; reflexivity.
  - apply Hfits; vm_compute; reflexivity.
  - rewrite (Hasked [module_A] module_B eq_refl);
      [reflexivity | right; vm_compute; reflexivity | reflexivity].
  - apply (Hpassed [module_A] module_B eq_refl);
      [right; vm_compute; reflexivity | reflexivity].
Defined.

(** C8 as stated fails when the sum of the counts passes [2^32].  Three
    modules report 4294967294, 3 and 5 matches and [max_matches] is
    4294967295.  After the second module 4294967297 matches have been
    reported, more than [max_matches], yet the counter holds 1 and the third
    module is asked too; the value returned is 6, where the modules
    reported 4294967302 matches. *)
Lemma FindTypes_counter_wraps :
  asked (FindTypes (MI := ScenarioReports.reports)
                   [ScenarioReports.module_P; ScenarioReports.module_Q;
                    ScenarioReports.module_R]
                   None "T"%string true 4294967295 [])
  = [(ScenarioReports.module_P, 4294967294%N);
     (ScenarioReports.module_Q, 3%N);
     (ScenarioReports.module_R, 5%N)]
  /\ (4294967295 <= 4294967294 + 3)%N
  /\ total_matches (FindTypes (MI := ScenarioReports.reports)
                              [ScenarioReports.module_P;
                               ScenarioReports.module_Q]
                              None "T"%string true 4294967295 [])
     = 1%N
  /\ total_matches (FindTypes (MI := ScenarioReports.reports)
                              [ScenarioReports.module_P;
                               ScenarioReports.module_Q;
                               ScenarioReports.module_R]
                              None "T"%string true 4294967295 [])
     = 6%N
  /\ total_matches (FindTypes (MI := ScenarioReports.reports)
                              [ScenarioReports.module_P;
                               ScenarioReports.module_Q;
                               ScenarioReports.module_R]
                              None "T"%string true 4294967295 [])
     <> (4294967294 + 3 + 5)%N.
Proof.
  split; [reflexivity|]. split; [vm_compute; discriminate|].
  split; [reflexivity|]. split; [reflexivity|]. vm_compute; discriminate.
Qed.

Lemma GetSharedModule_initial_search_witness :
  (GetUUIDPtr spec_bin_ls_uuid = Some 7%N
   /\ snd (FindModules [module_C; module_A; module_B] spec_bin_ls_uuid [])
      = module_A :: [module_B]
   /\ GetSharedModule spec_bin_ls_uuid None (Some (Some module_C)) (Some true)
                      false
                      (mkShared [module_C; module_A; module_B] 4%positive)
      = mkResult None (Some module_A) (Some None) (Some false)
                 (mkShared [module_C; module_A; module_B] 4%positive))
  /\ (GetUUIDPtr spec_path_only = None
      /\ snd (FindModules [module_A; module_C; module_B; module_D]
                          spec_path_only [])
         = [module_A; module_B] ++ module_D :: []
      /\ GetSharedModule spec_path_only None (Some None) (Some true) false
                         (mkShared [module_A; module_C; module_B; module_D]
                                   5%positive)
         = mkResult None (Some module_D) (Some (Some module_A)) (Some false)
                    (mkShared [module_C; module_D] 5%positive))
  /\ (Forall (fun m => same_modification_time (m_file spec_path_only) m
                       = false)
             (snd (FindModules [module_A; module_B] spec_path_only []))
      /\ GetSharedModule spec_path_only None (Some None) (Some false) false
                         (mkShared [module_A; module_B] 3%positive)
         = GetSharedModule_create spec_path_only (Some (Some module_A))
                                  (Some false) [] 3%positive)
  /\ same_modification_time (m_file spec_path_only) module_A
     = TimeValue_eqb (FileSpec_GetModificationTime (m_file spec_path_only))
                     (Module_GetModificationTime module_A).
Proof.
  assert (Hstale :
            Forall (fun m => same_modification_time (m_file spec_path_only) m
                             = false) [module_A; module_B])
    by (repeat constructor).
  destruct (GetSharedModule_initial_search
              (MI := interface) spec_bin_ls_uuid None (Some (Some module_C))
              (Some true)
              (mkShared (MI := interface) [module_C; module_A; module_B]
                        4%positive)) as (Hfirst & _).
  destruct (GetSharedModule_initial_search
              (MI := interface) spec_path_only None (Some None) (Some true)
              (mkShared (MI := interface)
                        [module_A; module_C; module_B; module_D] 5%positive))
    as (_ & Hfresh & _).
  destruct (GetSharedModule_initial_search
              (MI := interface) spec_path_only None (Some None) (Some false)
              (mkShared (MI := interface) [module_A; module_B] 3%positive))
    as (_ & _ & Hnone & Htime & _).
  split; [| split; [| split]].
  - split; [reflexivity|]. split; [reflexivity|].
    apply (Hfirst 7%N module_A [module_B]); reflexivity.
  - split; [reflexivity|]. split; [reflexivity|].
    apply (Hfresh [module_A; module_B] module_D []);
      [reflexivity | reflexivity | exact Hstale | reflexivity].
  - split; [exact Hstale|].
    apply Hnone; [reflexivity | exact Hstale].
  - apply Htime; reflexivity.
Defined.

(** C4 as stated fails for a second stale candidate.  The cache holds
    [module_A] and [module_B], both loaded from ["/bin/ls"] at times other
    than the file's present one, and [module_D], loaded at the present time.
    The call retires [module_A] and [module_B] and returns [module_D]; the
    old-module output holds [module_A], so [module_B] is not recorded, and
    the cache has changed although a candidate with the path's modification
    time was returned. *)
Lemma GetSharedModule_second_stale_not_recorded :
  GetUUIDPtr spec_path_only = None
  /\ TimeValue_IsValid (FileSpec_GetModificationTime (m_file spec_path_only))
     = true
  /\ TimeValue_eqb (FileSpec_GetModificationTime (m_file spec_path_only))
                   (Module_GetModificationTime module_B) = false
  /\ GetSharedModule spec_path_only None (Some None) (Some false) false
                     (mkShared [module_A; module_B; module_D] 5%positive)
     = mkResult None (Some module_D) (Some (Some module_A)) (Some false)
                (mkShared [module_D] 5%positive)
  /\ res_old_module_sp_ptr
       (GetSharedModule spec_path_only None (Some None) (Some false) false
                        (mkShared [module_A; module_B; module_D] 5%positive))
     <> Some (Some module_B).
Proof. repeat split; discriminate. Qed.

Lemma GetSharedModule_twice_same_module_witness :
  GetUUIDPtr spec_bin_ls_uuid = Some 7%N
  /\ res_error (GetSharedModule spec_bin_ls_uuid None None (Some false) false
                                (mkShared [] 1%positive)) = None
  /\ res_module_sp (GetSharedModule spec_bin_ls_uuid None None (Some false)
                                    false (mkShared [] 1%positive))
     = Some (mkModule 1%positive (Data_new spec_bin_ls_uuid))
  /\ Module_MatchesModuleSpec (mkModule 1%positive (Data_new spec_bin_ls_uuid))
                              spec_bin_ls_uuid = true
  /\ GetSharedModule spec_bin_ls_uuid None None (Some true) false
                     (res_shared
                        (GetSharedModule spec_bin_ls_uuid None None
                                         (Some false) false (mkShared [] 1%positive)))
     = mkResult None (Some (mkModule 1%positive (Data_new spec_bin_ls_uuid))) None
                (Some false)
                (res_shared
                   (GetSharedModule spec_bin_ls_uuid None None (Some false)
                                    false (mkShared [] 1%positive))).
Proof.
  repeat (split; [reflexivity|]).
  apply (GetSharedModule_twice_same_module (MI := interface)
           spec_bin_ls_uuid None None None None (Some false) (Some true)
           (mkShared [] 1%positive) 7%N (mkModule 1%positive (Data_new spec_bin_ls_uuid)));
    reflexivity.
Defined.

(** C5 (the code departs from the claim): the spec asks for identifier [7] at
    ["/tmp/ls"], which is not on disk; the locator answers ["/dsym/ls"], a
    file whose identifier is [9].  The first call constructs a module from
    the located file and appends it to the cache without comparing
    identifiers; it returns the module at address [2].  The second call finds
    no cached module with identifier [7], constructs another module, at
    address [4], and reports it as newly created.  Asked for the same file
    directly, the direct construction compares the identifiers and hands out
    no module. *)
Theorem GetSharedModule_located_module_not_checked :
  GetUUIDPtr spec_with_uuid = Some 7%N
  /\ Symbols_LocateExecutableObjectFile spec_with_uuid = "/dsym/ls"%string
  /\ res_error (GetSharedModule spec_with_uuid None None (Some false) false
                                (mkShared [] 1%positive)) = None
  /\ get (res_module_sp
            (GetSharedModule spec_with_uuid None None (Some false) false
                             (mkShared [] 1%positive)))
     = Some 2%positive
  /\ option_map Module_GetUUID
                (res_module_sp
                   (GetSharedModule spec_with_uuid None None (Some false) false
                                    (mkShared [] 1%positive)))
     = Some 9%N
  /\ get (res_module_sp
            (GetSharedModule spec_with_uuid None None (Some false) false
               (res_shared
                  (GetSharedModule spec_with_uuid None None (Some false) false
                                   (mkShared [] 1%positive)))))
     = Some 4%positive
  /\ res_did_create_ptr
       (GetSharedModule spec_with_uuid None None (Some false) false
          (res_shared
             (GetSharedModule spec_with_uuid None None (Some false) false
                              (mkShared [] 1%positive))))
     = Some true
  /\ res_module_sp
       (GetSharedModule ScenarioReports.spec_dsym_uuid None None (Some false)
                        false (mkShared [] 1%positive))
     = None.
Proof. repeat split. Qed.

(** * Further properties of the registry *)

Section RegistryLaws.

Context {ModuleData : Type}.

Local Abbreviation Obj := (ModuleObject ModuleData).
Local Abbreviation registry := (collection ModuleData).

Implicit Types (l pre post R S : registry) (e m : Obj) (p : ModulePtr).

(** X1: [Append] of a non-null reference makes the registry one entry
    longer, puts the module at the index that was the size before, and
    leaves what every smaller index yields as it was. *)
Theorem Append_then_GetModuleAtIndex l m :
  GetSize (Append l (Some m)) = S (GetSize l)
  /\ GetModuleAtIndex (Append l (Some m)) (N.of_nat (GetSize l)) = Some m
  /\ forall idx : N,
      (idx < N.of_nat (GetSize l))%N ->
      GetModuleAtIndex (Append l (Some m)) idx = GetModuleAtIndex l idx.
Proof.
  unfold GetSize, Append, GetModuleAtIndex; rewrite length_app; simpl.
  split; [lia|]. split.
  - assert (Hlt : (N.of_nat (length l) <? N.of_nat (length l + 1))%N = true)
      by (apply N.ltb_lt; lia).
    rewrite Hlt, Nat2N.id, nth_error_app2, Nat.sub_diag by lia; reflexivity.
  - intros idx Hidx.
    assert (Hlt : (idx <? N.of_nat (length l + 1))%N = true)
      by (apply N.ltb_lt; lia).
    apply N.ltb_lt in Hidx as Hlt'.
    rewrite Hlt, Hlt', nth_error_app1 by lia; reflexivity.
Qed.

Lemma Remove_scan_first pre e post m :
  holds pre (Module_this m) = false ->
  Module_this e = Module_this m ->
  Remove_scan (pre ++ e :: post) m = Some (pre ++ post).
Proof.
  intros Hpre Heq; induction pre as [| x pre IH]; simpl.
  - unfold same_module; rewrite Heq, Pos.eqb_refl; reflexivity.
  - simpl in Hpre; apply orb_false_iff in Hpre as [Hx Hpre].
    unfold same_module; rewrite Hx, IH by assumption; reflexivity.
Qed.

(** X2: [Remove] erases the first entry that has the identity of the
    module, and only that one: the entries before and behind it stay, in
    order, and the call returns [true].  When no entry has that identity the
    call returns [false] and the registry is as it was. *)
Theorem Remove_erases_first_entry pre e post m l :
  (holds pre (Module_this m) = false ->
   Module_this e = Module_this m ->
   Remove (pre ++ e :: post) (Some m) = (true, pre ++ post))
  /\ (holds l (Module_this m) = false -> Remove l (Some m) = (false, l)).
Proof.
  split.
  - intros Hpre Heq; simpl.
    rewrite Remove_scan_first by assumption; reflexivity.
  - intros Hnot; simpl.
    apply Remove_scan_None in Hnot; rewrite Hnot; reflexivity.
Qed.

Lemma NoDup_map_snoc l m :
  NoDup (map Module_this l) ->
  holds l (Module_this m) = false ->
  NoDup (map Module_this (l ++ [m])).
Proof.
  intros Hnd Hnot; apply holds_false_iff in Hnot.
  rewrite map_app; simpl.
  apply NoDup_app; repeat split; try assumption.
  - constructor; [intros [] | constructor].
  - intros x Hx [<- | []]; contradiction.
Qed.

(** X3: a registry in which no module occurs twice stays so under
    [AppendIfNeeded] and under [Remove], and after [Remove] it no longer
    holds the module removed. *)
Theorem AppendIfNeeded_and_Remove_keep_distinct l sp m :
  NoDup (map Module_this l) ->
  NoDup (map Module_this (snd (AppendIfNeeded l sp)))
  /\ NoDup (map Module_this (snd (Remove l sp)))
  /\ holds (snd (Remove l (Some m))) (Module_this m) = false.
Proof.
  intros Hnd; split; [| split].
  - destruct sp as [x |]; simpl; [| assumption].
    rewrite AppendIfNeeded_scan_holds.
    destruct (holds l (Module_this x)) eqn:Hx; simpl; [assumption|].
    apply NoDup_map_snoc; assumption.
  - destruct sp as [x |]; [| assumption].
    rewrite Remove_NoDup by assumption.
    apply NoDup_map_filter; assumption.
  - rewrite Remove_NoDup by assumption.
    apply holds_false_iff; intros Hin.
    apply in_map_iff in Hin as [x [Hx Hin]].
    apply filter_In in Hin as [_ Hkeep].
    apply negb_true_iff, Pos.eqb_neq in Hkeep; contradiction.
Qed.

Lemma count_ptr_all_zero l : (forall p, count_ptr p l = 0) -> l = [].
Proof.
  destruct l as [| e l]; [reflexivity|]; intros Hzero.
  specialize (Hzero (Module_this e)).
  rewrite count_ptr_cons, Pos.eqb_refl in Hzero; discriminate.
Qed.

(** X4: when every module has at least as many entries in [S] as in [R],
    [R.Remove(S)] empties [R] and returns the number of entries [R] had.  In
    particular, removing a copy of the registry from it empties it. *)
Theorem Remove_ModuleList_empties R S :
  (forall p, count_ptr p R <= count_ptr p S) ->
  Remove_ModuleList R S = (length R, []).
Proof.
  intros Hle; unfold Remove_ModuleList.
  destruct (Remove_ModuleList_loop_spec S R 0) as [Hlen Hcount].
  assert (Hnil : snd (Remove_ModuleList_loop S R 0) = []).
  { apply count_ptr_all_zero; intros p; rewrite Hcount.
    specialize (Hle p); lia. }
  destruct (Remove_ModuleList_loop S R 0) as [n R']; simpl in *.
  subst R'; simpl in Hlen; f_equal; lia.
Qed.

(** X5: [RemoveOrphans] is idempotent: run again on its own result (the
    outside holders being the same), it removes nothing and returns [0]. *)
Theorem RemoveOrphans_idempotent outside l :
  RemoveOrphans outside (snd (RemoveOrphans outside l)) =
  (0, snd (RemoveOrphans outside l)).
Proof.
  unfold RemoveOrphans at 2 3; rewrite RemoveOrphans_loop_spec; cbn [snd app].
  set (l' := filter (fun e => negb (unique outside l e)) l).
  assert (Hkept : forall e, In e l' -> unique outside l' e = false).
  { intros e He; apply filter_In in He as [_ Hkeep].
    apply negb_true_iff in Hkeep; rewrite <- Hkeep.
    unfold unique, use_count; f_equal; f_equal.
    apply count_ptr_filter; intros x _ Hx.
    unfold unique, use_count in *; rewrite Hx, Hkeep; reflexivity. }
  unfold RemoveOrphans; rewrite RemoveOrphans_loop_spec; cbn [app].
  f_equal.
  - rewrite (filter_ext_in (unique outside l') (fun _ => false)) by assumption.
    clear; induction l' as [| x l' IH]; simpl; auto.
  - apply forallb_filter_id, forallb_forall; intros e He.
    rewrite Hkept by assumption; reflexivity.
Qed.

End RegistryLaws.

(** * Properties of the lookups *)

Section LookupLaws.

Context {VT : ValueTypes} {MI : ModuleInterface}.

Local Abbreviation Obj := (ModuleObject ModuleData).
Local Abbreviation registry := (collection ModuleData).

Implicit Types (l pos : registry) (e m : Obj) (p : ModulePtr)
         (module_spec : ModuleSpec).

Lemma FindModule_ptr_null l : FindModule_ptr l None = None.
Proof. induction l as [| e l IH]; simpl; auto. Qed.

Lemma FindModule_ptr_not_held l p :
  holds l p = false -> FindModule_ptr l (Some p) = None.
Proof.
  induction l as [| e l IH]; simpl; [reflexivity|].
  intros Hnot; apply orb_false_iff in Hnot as [He Hl].
  rewrite He; auto.
Qed.

Lemma FindModule_ptr_held l p :
  holds l p = true ->
  exists e, FindModule_ptr l (Some p) = Some e /\ Module_this e = p /\ In e l.
Proof.
  induction l as [| e l IH]; simpl; [discriminate|].
  destruct (Pos.eqb (Module_this e) p) eqn:He; simpl.
  - intros _; exists e; apply Pos.eqb_eq in He; auto.
  - intros Hl; destruct (IH Hl) as [x [Hx [Hp Hin]]]; eauto.
Qed.

Lemma GetIndexForModule_scan_None pos (d : nat) p :
  holds pos p = false -> GetIndexForModule_scan pos d p = None.
Proof.
  revert d; induction pos as [| e pos IH]; intros d; simpl; [reflexivity|].
  intros Hnot; apply orb_false_iff in Hnot as [He Hl].
  rewrite He; auto.
Qed.

Lemma GetIndexForModule_scan_Some pos (d : nat) p :
  holds pos p = true ->
  exists i, GetIndexForModule_scan pos d p = Some (d + i)
            /\ i < length pos
            /\ nth_error pos i = FindModule_ptr pos (Some p).
Proof.
  revert d; induction pos as [| e pos IH]; intros d; simpl; [discriminate|].
  destruct (Pos.eqb (Module_this e) p) eqn:He; simpl.
  - intros _; exists 0; rewrite Nat.add_0_r; repeat split; lia.
  - intros Hl; destruct (IH (S d) Hl) as [i [Hscan [Hlt Hnth]]].
    exists (S i); rewrite Hscan; repeat split; [f_equal; lia | lia | exact Hnth].
Qed.

(** X6: [GetIndexForModule] answers [LLDB_INVALID_INDEX32] for a null
    pointer and for a module the registry does not hold.  For a module it
    holds (the registry having at most [2^32] entries) it answers an index
    below the size, at which [GetModulePointerAtIndex] yields the pointer
    asked for and [GetModuleAtIndex] yields the entry that
    [FindModule] finds for that pointer. *)
Theorem GetIndexForModule_round_trip (LLDB_INVALID_INDEX32 : N) l p :
  GetIndexForModule LLDB_INVALID_INDEX32 l None = LLDB_INVALID_INDEX32
  /\ (holds l p = false ->
      GetIndexForModule LLDB_INVALID_INDEX32 l (Some p) = LLDB_INVALID_INDEX32
      /\ FindModule_ptr l (Some p) = None)
  /\ (holds l p = true ->
      (N.of_nat (length l) <= 2 ^ 32)%N ->
      (GetIndexForModule LLDB_INVALID_INDEX32 l (Some p)
       < N.of_nat (length l))%N
      /\ GetModulePointerAtIndex
           l (GetIndexForModule LLDB_INVALID_INDEX32 l (Some p)) = Some p
      /\ GetModuleAtIndex
           l (GetIndexForModule LLDB_INVALID_INDEX32 l (Some p))
         = FindModule_ptr l (Some p)).
Proof.
  split; [reflexivity|]. split.
  - intros Hnot; unfold GetIndexForModule.
    rewrite GetIndexForModule_scan_None, FindModule_ptr_not_held by assumption.
    split; reflexivity.
  - intros Hheld Hsize; unfold GetIndexForModule.
    destruct (GetIndexForModule_scan_Some l 0 p Hheld) as [i [Hscan [Hlt Hnth]]].
    rewrite Hscan; cbn [Nat.add].
    assert (Hsmall : uint32 (N.of_nat i) = N.of_nat i)
      by (unfold uint32; apply N.mod_small; lia).
    rewrite Hsmall.
    assert (Hltb : (N.of_nat i <? N.of_nat (length l))%N = true)
      by (apply N.ltb_lt; lia).
    unfold GetModulePointerAtIndex, GetModuleAtIndex.
    rewrite Hltb, Nat2N.id, Hnth.
    split; [lia|]. split; [| reflexivity].
    destruct (FindModule_ptr_held l p Hheld) as [e [He [Hp _]]].
    rewrite He; simpl; congruence.
Qed.

(** X7: [FindModules] keeps what the output list held, appends to it the
    modules of the registry that match the spec, in the registry's order,
    and returns the number of modules it appended.  [FindSharedModules] does
    the same on the shared cache. *)
Theorem FindModules_appends_the_matching l module_spec
        (matching_module_list : registry) (st : SharedModules) :
  FindModules l module_spec matching_module_list
  = (length (filter (fun m => Module_MatchesModuleSpec m module_spec) l),
     matching_module_list
       ++ filter (fun m => Module_MatchesModuleSpec m module_spec) l)
  /\ FindSharedModules module_spec matching_module_list st
     = (length (filter (fun m => Module_MatchesModuleSpec m module_spec)
                       (g_shared_module_list st)),
        matching_module_list
          ++ filter (fun m => Module_MatchesModuleSpec m module_spec)
                    (g_shared_module_list st)).
Proof.
  assert (Hgen : forall l0,
             FindModules l0 module_spec matching_module_list
             = (length (filter (fun m => Module_MatchesModuleSpec m module_spec)
                               l0),
                matching_module_list
                  ++ filter (fun m => Module_MatchesModuleSpec m module_spec)
                            l0)).
  { intros l0; unfold FindModules, GetSize.
    rewrite FindModules_fold, length_app; f_equal; lia. }
  split; [apply Hgen | apply Hgen].
Qed.

Lemma FindFirstModule_filter l module_spec :
  FindFirstModule l module_spec =
  hd_error (filter (fun m => Module_MatchesModuleSpec m module_spec) l).
Proof.
  induction l as [| e l IH]; simpl; [reflexivity|].
  destruct (Module_MatchesModuleSpec e module_spec); simpl; auto.
Qed.

(** X8: [FindFirstModule] returns the module that [FindModules] puts first
    into an empty output list, and the empty reference exactly when
    [FindModules] finds none. *)
Theorem FindFirstModule_is_first_of_FindModules l module_spec :
  FindFirstModule l module_spec
  = GetModuleAtIndex (snd (FindModules l module_spec [])) 0
  /\ (FindFirstModule l module_spec = None
      <-> fst (FindModules l module_spec []) = 0).
Proof.
  rewrite FindModules_nil, FindFirstModule_filter; cbn [fst snd].
  destruct (filter (fun m => Module_MatchesModuleSpec m module_spec) l)
    as [| c rest]; simpl.
  - split; [reflexivity | tauto].
  - split; [reflexivity | split; discriminate].
Qed.

(** X22: [FindModule] by identifier returns the empty reference for an
    invalid identifier, whatever the registry holds.  For a valid one, a
    module it returns is an entry of the registry whose identifier compares
    equal to the one asked for, and it returns the empty reference only if
    no entry's identifier does. *)
Theorem FindModule_uuid_finds_equal_identifier l (uuid : UUID) :
  (UUID_IsValid uuid = false -> FindModule_uuid l uuid = None)
  /\ (forall e, FindModule_uuid l uuid = Some e ->
                UUID_IsValid uuid = true
                /\ In e l
                /\ UUID_eqb (Module_GetUUID e) uuid = true)
  /\ (UUID_IsValid uuid = true ->
      FindModule_uuid l uuid = None ->
      forall e, In e l -> UUID_eqb (Module_GetUUID e) uuid = false).
Proof.
  unfold FindModule_uuid; split; [| split].
  - intros ->; reflexivity.
  - intros e; destruct (UUID_IsValid uuid); [| discriminate].
    intros Hfound; split; [reflexivity|].
    induction l as [| x l IH]; simpl in Hfound; [discriminate|].
    destruct (UUID_eqb (Module_GetUUID x) uuid) eqn:Hx.
    + injection Hfound as <-; split; [left; reflexivity | assumption].
    + destruct (IH Hfound) as [Hin Heq]; split; [right|]; assumption.
  - intros ->; induction l as [| x l IH]; simpl; intros Hnone e He;
      [contradiction|].
    destruct (UUID_eqb (Module_GetUUID x) uuid) eqn:Hx; [discriminate|].
    destruct He as [<- | He]; [assumption | apply IH; assumption].
Qed.

End LookupLaws.

(** * Further properties of the broadcast queries *)

Section BroadcastLaws.

Context {VT : ValueTypes} {MI : ModuleInterface}.

Local Abbreviation Obj := (ModuleObject ModuleData).
Local Abbreviation registry := (collection ModuleData).

Implicit Types (l pre post : registry) (sc : SymbolContext).

Lemma size_t_sub_added {A : Type} (before added : list A) :
  size_t_sub (List_GetSize (before ++ added)) (List_GetSize before)
  = (N.of_nat (length added) mod 2 ^ 64)%N.
Proof.
  unfold size_t_sub, List_GetSize; rewrite length_app.
  replace (Z.of_N (N.of_nat (length before + length added))
           - Z.of_N (N.of_nat (length before)))%Z
    with (Z.of_N (N.of_nat (length added))) by lia.
  rewrite <- (N2Z.id (N.of_nat (length added) mod 2 ^ 64)).
  f_equal; rewrite N2Z.inj_mod; reflexivity.
Qed.

(** A loop over modules each of which appends what it found appends, in the
    registry's order, what the modules found. *)
Lemma fold_left_found {A : Type} (f : Obj -> list A -> list A)
      (found : Obj -> list A) l :
  (forall e acc, In e l -> f e acc = acc ++ found e) ->
  forall acc0,
    fold_left (fun acc pos => f pos acc) l acc0 = acc0 ++ flat_map found l.
Proof.
  induction l as [| e l IH]; intros Hf acc0; simpl.
  - rewrite app_nil_r; reflexivity.
  - rewrite (Hf e acc0 (or_introl eq_refl)).
    rewrite (IH (fun x acc Hx => Hf x acc (or_intror Hx))), app_assoc.
    reflexivity.
Qed.

(** X9: when each module's symbol search appends to the list it is given
    the symbols it found, [FindSymbolsWithNameAndType] and
    [FindSymbolsMatchingRegExAndType] leave the caller's list (emptied first
    unless [append]) followed by what the modules found, module after module
    in the registry's order, and return the number of results they added, as
    a [size_t]. *)
Theorem FindSymbols_return_the_number_added l (name : ConstString)
        (regex : RegularExpression) (symbol_type : SymbolType)
        (sc_list : list SymbolContext) (append : bool)
        (found found_regex : Obj -> list SymbolContext) :
  ((forall e acc, In e l ->
                  Module_FindSymbolsWithNameAndType e name symbol_type acc
                  = acc ++ found e) ->
   FindSymbolsWithNameAndType l name symbol_type sc_list append
   = ((N.of_nat (length (flat_map found l)) mod 2 ^ 64)%N,
      (if append then sc_list else []) ++ flat_map found l))
  /\
  ((forall e acc, In e l ->
                  Module_FindSymbolsMatchingRegExAndType e regex symbol_type acc
                  = acc ++ found_regex e) ->
   FindSymbolsMatchingRegExAndType l regex symbol_type sc_list append
   = ((N.of_nat (length (flat_map found_regex l)) mod 2 ^ 64)%N,
      (if append then sc_list else []) ++ flat_map found_regex l)).
Proof.
  split; intros Hf.
  - unfold FindSymbolsWithNameAndType.
    rewrite (fold_left_found
               (fun e => Module_FindSymbolsWithNameAndType e name symbol_type)
               found l Hf).
    rewrite size_t_sub_added; destruct append; reflexivity.
  - unfold FindSymbolsMatchingRegExAndType.
    rewrite (fold_left_found
               (fun e =>
                  Module_FindSymbolsMatchingRegExAndType e regex symbol_type)
               found_regex l Hf).
    rewrite size_t_sub_added; destruct append; reflexivity.
Qed.

(** X10: when the symbol context names a module the registry does not hold,
    [FindTypes] asks no module, returns [0] and leaves the type list as the
    caller gave it (emptied unless [append]). *)
Theorem FindTypes_for_a_module_not_held l sc (name : ConstString)
        (append : bool) (max_matches : N) (types0 : list TypeSP)
        (p : ModulePtr) :
  get (SymbolContext_module_sp sc) = Some p ->
  holds l p = false ->
  FindTypes l sc name append max_matches types0
  = mkFindTypes 0 (if append then types0 else []) [].
Proof.
  intros Hsc Hnot; unfold FindTypes.
  replace (if negb append then [] else types0)
    with (if append then types0 else @nil TypeSP) by (destruct append; auto).
  generalize (mkFindTypes 0 (if append then types0 else []) []); intros st.
  induction l as [| e l IH]; [reflexivity|].
  simpl in Hnot; apply orb_false_iff in Hnot as [He Hl].
  cbn [FindTypes_loop]; unfold FindTypes_wants; rewrite Hsc.
  rewrite Pos.eqb_sym, He.
  destruct (max_matches <=? total_matches st)%N; auto.
Qed.

Lemma uint32_size_t_sub_added {A : Type} (before added : list A) :
  uint32 (size_t_sub (List_GetSize (before ++ added)) (List_GetSize before))
  = uint32 (N.of_nat (length added)).
Proof.
  rewrite size_t_sub_added; unfold uint32.
  change (2 ^ 64)%N with (2 ^ 32 * 2 ^ 32)%N.
  rewrite N.Div0.mod_mul_r, N.mul_comm, N.Div0.mod_add.
  apply N.Div0.mod_mod.
Qed.

(** X21: when each module's search for global variables, called with
    [append = true], appends to the list it is given the variables it found,
    both overloads of [FindGlobalVariables] called with [append = true] keep
    the caller's variables, followed by what the modules found, module after
    module in the registry's order, and return the number of variables
    added, as a [uint32_t]. *)
Theorem FindGlobalVariables_with_append_returns_number_added l
        (name : ConstString) (regex : RegularExpression) (max_matches : N)
        (variable_list : list VariableSP)
        (found found_regex : Obj -> list VariableSP) :
  ((forall e acc, In e l ->
                  Module_FindGlobalVariables e name true max_matches acc
                  = acc ++ found e) ->
   FindGlobalVariables l name true max_matches variable_list
   = (uint32 (N.of_nat (length (flat_map found l))),
      variable_list ++ flat_map found l))
  /\
  ((forall e acc, In e l ->
                  Module_FindGlobalVariables_regex e regex true max_matches acc
                  = acc ++ found_regex e) ->
   FindGlobalVariables_regex l regex true max_matches variable_list
   = (uint32 (N.of_nat (length (flat_map found_regex l))),
      variable_list ++ flat_map found_regex l)).
Proof.
  split; intros Hf.
  - unfold FindGlobalVariables.
    rewrite (fold_left_found
               (fun e => Module_FindGlobalVariables e name true max_matches)
               found l Hf).
    rewrite uint32_size_t_sub_added; reflexivity.
  - unfold FindGlobalVariables_regex.
    rewrite (fold_left_found
               (fun e =>
                  Module_FindGlobalVariables_regex e regex true max_matches)
               found_regex l Hf).
    rewrite uint32_size_t_sub_added; reflexivity.
Qed.

End BroadcastLaws.

(** * Properties of the first-match queries *)

Section FirstMatchLaws.

Context {VT : ValueTypes} {MI : ModuleInterface}.

Local Abbreviation Obj := (ModuleObject ModuleData).
Local Abbreviation registry := (collection ModuleData).

Variable Address : Type.
Variable Address_GetModule : Address -> ModuleSP ModuleData.
Variable Module_FindSourceFile : Obj -> FileSpec -> FileSpec -> bool * FileSpec.
Variable Module_ResolveFileAddress : Obj -> N -> Address -> bool * Address.
Variable Module_ResolveSymbolContextForAddress :
  Obj -> Address -> N -> SymbolContext -> N * SymbolContext.

Implicit Types (l pre post : registry).

(** While the modules answer [false], the scan goes on with the output as
    they left it. *)
Lemma FindSourceFile_while_false pre rest (orig_spec new_spec : FileSpec) :
  (forall pre1 e pre2,
      pre = pre1 ++ e :: pre2 ->
      fst (Module_FindSourceFile
             e orig_spec
             (fold_left (fun out x => snd (Module_FindSourceFile x orig_spec out))
                        pre1 new_spec)) = false) ->
  FindSourceFile Module_FindSourceFile (pre ++ rest) orig_spec new_spec
  = FindSourceFile Module_FindSourceFile rest orig_spec
      (fold_left (fun out x => snd (Module_FindSourceFile x orig_spec out))
                 pre new_spec).
Proof.
  revert new_spec; induction pre as [| x pre IH]; intros new_spec Hfalse;
    [reflexivity|].
  cbn [app FindSourceFile fold_left].
  pose proof (Hfalse [] x pre eq_refl) as Hx; cbn [fold_left] in Hx.
  destruct (Module_FindSourceFile x orig_spec new_spec) as [found out] eqn:Hans.
  cbn [fst snd] in *; subst found.
  apply IH; intros pre1 e pre2 ->.
  specialize (Hfalse (x :: pre1) e pre2 eq_refl).
  cbn [fold_left] in Hfalse; rewrite Hans in Hfalse; exact Hfalse.
Qed.

Lemma ResolveFileAddress_while_false pre rest (vm_addr : N)
      (so_addr : Address) :
  (forall pre1 e pre2,
      pre = pre1 ++ e :: pre2 ->
      fst (Module_ResolveFileAddress
             e vm_addr
             (fold_left (fun out x => snd (Module_ResolveFileAddress x vm_addr
                                                                     out))
                        pre1 so_addr)) = false) ->
  ResolveFileAddress Module_ResolveFileAddress (pre ++ rest) vm_addr so_addr
  = ResolveFileAddress Module_ResolveFileAddress rest vm_addr
      (fold_left (fun out x => snd (Module_ResolveFileAddress x vm_addr out))
                 pre so_addr).
Proof.
  revert so_addr; induction pre as [| x pre IH]; intros so_addr Hfalse;
    [reflexivity|].
  cbn [app ResolveFileAddress fold_left].
  pose proof (Hfalse [] x pre eq_refl) as Hx; cbn [fold_left] in Hx.
  destruct (Module_ResolveFileAddress x vm_addr so_addr) as [found out]
    eqn:Hans.
  cbn [fst snd] in *; subst found.
  apply IH; intros pre1 e pre2 ->.
  specialize (Hfalse (x :: pre1) e pre2 eq_refl).
  cbn [fold_left] in Hfalse; rewrite Hans in Hfalse; exact Hfalse.
Qed.

(** X11: [FindSourceFile] and [ResolveFileAddress] ask the modules in order,
    each with the output argument as the modules before left it.  When the
    modules of [pre] all answer [false] and the next module [m] answers
    [true], the call returns [true] with the output as [m] left it, and the
    modules behind [m] play no part.  When every module answers [false], the
    call returns [false] with the output as the last module left it. *)
Theorem FindSourceFile_and_ResolveFileAddress_first_match pre (m : Obj) post
        (orig_spec new_spec : FileSpec) (vm_addr : N) (so_addr : Address) :
  ((forall pre1 e pre2,
       pre = pre1 ++ e :: pre2 ->
       fst (Module_FindSourceFile
              e orig_spec
              (fold_left
                 (fun out x => snd (Module_FindSourceFile x orig_spec out))
                 pre1 new_spec)) = false) ->
   (fst (Module_FindSourceFile
           m orig_spec
           (fold_left (fun out x => snd (Module_FindSourceFile x orig_spec out))
                      pre new_spec)) = true ->
    FindSourceFile Module_FindSourceFile (pre ++ m :: post) orig_spec new_spec
    = (true,
       snd (Module_FindSourceFile
              m orig_spec
              (fold_left
                 (fun out x => snd (Module_FindSourceFile x orig_spec out))
                 pre new_spec))))
   /\ FindSourceFile Module_FindSourceFile pre orig_spec new_spec
      = (false,
         fold_left (fun out x => snd (Module_FindSourceFile x orig_spec out))
                   pre new_spec))
  /\
  ((forall pre1 e pre2,
       pre = pre1 ++ e :: pre2 ->
       fst (Module_ResolveFileAddress
              e vm_addr
              (fold_left
                 (fun out x => snd (Module_ResolveFileAddress x vm_addr out))
                 pre1 so_addr)) = false) ->
   (fst (Module_ResolveFileAddress
           m vm_addr
           (fold_left
              (fun out x => snd (Module_ResolveFileAddress x vm_addr out))
              pre so_addr)) = true ->
    ResolveFileAddress Module_ResolveFileAddress (pre ++ m :: post) vm_addr
                       so_addr
    = (true,
       snd (Module_ResolveFileAddress
              m vm_addr
              (fold_left
                 (fun out x => snd (Module_ResolveFileAddress x vm_addr out))
                 pre so_addr))))
   /\ ResolveFileAddress Module_ResolveFileAddress pre vm_addr so_addr
      = (false,
         fold_left (fun out x => snd (Module_ResolveFileAddress x vm_addr out))
                   pre so_addr)).
Proof.
  split; intros Hfalse; split.
  - intros Hm; rewrite FindSourceFile_while_false by assumption.
    cbn [FindSourceFile].
    destruct (Module_FindSourceFile m orig_spec _) as [found out].
    cbn [fst snd] in *; subst found; reflexivity.
  - rewrite <- (app_nil_r pre) at 1.
    rewrite FindSourceFile_while_false by assumption; reflexivity.
  - intros Hm; rewrite ResolveFileAddress_while_false by assumption.
    cbn [ResolveFileAddress].
    destruct (Module_ResolveFileAddress m vm_addr _) as [found out].
    cbn [fst snd] in *; subst found; reflexivity.
  - rewrite <- (app_nil_r pre) at 1.
    rewrite ResolveFileAddress_while_false by assumption; reflexivity.
Qed.

Lemma ResolveSymbolContextForAddress_while_zero pre rest (so_addr : Address)
      (resolve_scope : N) (sc : SymbolContext) :
  (forall pre1 e pre2,
      pre = pre1 ++ e :: pre2 ->
      fst (Module_ResolveSymbolContextForAddress
             e so_addr resolve_scope
             (fold_left
                (fun sc0 x =>
                   snd (Module_ResolveSymbolContextForAddress
                          x so_addr resolve_scope sc0))
                pre1 sc)) = 0%N) ->
  ResolveSymbolContextForAddress_scan Module_ResolveSymbolContextForAddress
    (pre ++ rest) so_addr resolve_scope sc 0
  = ResolveSymbolContextForAddress_scan Module_ResolveSymbolContextForAddress
      rest so_addr resolve_scope
      (fold_left
         (fun sc0 x =>
            snd (Module_ResolveSymbolContextForAddress x so_addr resolve_scope
                                                       sc0))
         pre sc)
      0.
Proof.
  revert sc; induction pre as [| x pre IH]; intros sc Hzero; [reflexivity|].
  cbn [app ResolveSymbolContextForAddress_scan fold_left].
  pose proof (Hzero [] x pre eq_refl) as Hx; cbn [fold_left] in Hx.
  destruct (Module_ResolveSymbolContextForAddress x so_addr resolve_scope sc)
    as [flags sc'] eqn:Hans.
  cbn [fst snd] in *; subst flags; cbn [N.eqb negb].
  apply IH; intros pre1 e pre2 ->.
  specialize (Hzero (x :: pre1) e pre2 eq_refl).
  cbn [fold_left] in Hzero; rewrite Hans in Hzero; exact Hzero.
Qed.

(** X12: [ResolveSymbolContextForAddress] hands an address that carries its
    module to that module and returns its answer, whatever the registry
    holds.  For an address that carries no module it asks the modules of the
    registry in order, each with the symbol context as the modules before
    left it: when the modules of [pre] all answer [0] and the next module
    [m] answers with other flags, those flags and the context as [m] left it
    are returned, and the modules behind [m] play no part; when every module
    answers [0], the result is [0]. *)
Theorem ResolveSymbolContextForAddress_first_match pre (m : Obj) post
        (so_addr : Address) (resolve_scope : N) (sc : SymbolContext) :
  (forall own : Obj,
      Address_GetModule so_addr = Some own ->
      ResolveSymbolContextForAddress
        Address_GetModule Module_ResolveSymbolContextForAddress
        pre so_addr resolve_scope sc
      = Module_ResolveSymbolContextForAddress own so_addr resolve_scope sc)
  /\
  (Address_GetModule so_addr = None ->
   (forall pre1 e pre2,
       pre = pre1 ++ e :: pre2 ->
       fst (Module_ResolveSymbolContextForAddress
              e so_addr resolve_scope
              (fold_left
                 (fun sc0 x =>
                    snd (Module_ResolveSymbolContextForAddress
                           x so_addr resolve_scope sc0))
                 pre1 sc)) = 0%N) ->
   (fst (Module_ResolveSymbolContextForAddress
           m so_addr resolve_scope
           (fold_left
              (fun sc0 x =>
                 snd (Module_ResolveSymbolContextForAddress
                        x so_addr resolve_scope sc0))
              pre sc)) <> 0%N ->
    ResolveSymbolContextForAddress
      Address_GetModule Module_ResolveSymbolContextForAddress
      (pre ++ m :: post) so_addr resolve_scope sc
    = Module_ResolveSymbolContextForAddress
        m so_addr resolve_scope
        (fold_left
           (fun sc0 x =>
              snd (Module_ResolveSymbolContextForAddress
                     x so_addr resolve_scope sc0))
           pre sc))
   /\ ResolveSymbolContextForAddress
        Address_GetModule Module_ResolveSymbolContextForAddress
        pre so_addr resolve_scope sc
      = (0%N,
         fold_left
           (fun sc0 x =>
              snd (Module_ResolveSymbolContextForAddress
                     x so_addr resolve_scope sc0))
           pre sc)).
Proof.
  split.
  - intros own Hown; unfold ResolveSymbolContextForAddress; rewrite Hown.
    reflexivity.
  - intros Hnone Hzero; unfold ResolveSymbolContextForAddress; rewrite Hnone.
    split.
    + intros Hm; rewrite ResolveSymbolContextForAddress_while_zero
        by assumption.
      cbn [ResolveSymbolContextForAddress_scan].
      destruct (Module_ResolveSymbolContextForAddress m so_addr resolve_scope _)
        as [flags sc'].
      cbn [fst] in Hm; apply N.eqb_neq in Hm; rewrite Hm; reflexivity.
    + rewrite <- (app_nil_r pre) at 1.
      rewrite ResolveSymbolContextForAddress_while_zero by assumption.
      reflexivity.
Qed.

End FirstMatchLaws.

(** * What [GetSharedModule] does to the cache *)

Section CacheLaws.

Context {VT : ValueTypes} {MI : ModuleInterface}.

Local Abbreviation Obj := (ModuleObject ModuleData).
Local Abbreviation registry := (collection ModuleData).
Local Abbreviation out_module := (option (ModuleSP ModuleData)).

Implicit Types (module_spec : ModuleSpec) (l shared stale : registry)
         (old : out_module) (did : option bool) (st : SharedModules)
         (p next : ModulePtr).

Local Abbreviation matching module_spec l :=
  (filter (fun m : Obj => Module_MatchesModuleSpec m module_spec) l).

Lemma Remove_ModuleList_nil l : snd (Remove_ModuleList l []) = l.
Proof. reflexivity. Qed.

Lemma Remove_ModuleList_app l (s1 s2 : registry) :
  snd (Remove_ModuleList l (s1 ++ s2)) =
  snd (Remove_ModuleList (snd (Remove_ModuleList l s1)) s2).
Proof.
  revert l; induction s1 as [| e s1 IH]; intros l; [reflexivity|].
  cbn [app]; rewrite !Remove_ModuleList_cons; apply IH.
Qed.

Lemma Remove_ModuleList_one l (c : Obj) :
  snd (Remove_ModuleList l [c]) = snd (Remove l (Some c)).
Proof. rewrite Remove_ModuleList_cons; reflexivity. Qed.

Lemma Remove_scan_incl l (m : Obj) l' :
  Remove_scan l m = Some l' -> incl l' l.
Proof.
  revert l'; induction l as [| e l IH]; simpl; intros l' Hscan; [discriminate|].
  destruct (same_module e m).
  - injection Hscan as <-; apply incl_tl, incl_refl.
  - destruct (Remove_scan l m) as [l0 |]; simpl in Hscan; [|discriminate].
    injection Hscan as <-.
    apply incl_cons; [left; reflexivity | apply incl_tl, IH; reflexivity].
Qed.

Lemma Remove_incl l (sp : ModuleSP ModuleData) : incl (snd (Remove l sp)) l.
Proof.
  destruct sp as [m |]; simpl; [| apply incl_refl].
  destruct (Remove_scan l m) as [l' |] eqn:Hscan; simpl;
    [eapply Remove_scan_incl; eassumption | apply incl_refl].
Qed.

Lemma Remove_ModuleList_incl l stale :
  incl (snd (Remove_ModuleList l stale)) l.
Proof.
  revert l; induction stale as [| e stale IH]; intros l; [apply incl_refl|].
  rewrite Remove_ModuleList_cons.
  eapply incl_tran; [apply IH | apply Remove_incl].
Qed.

Lemma count_ptr_filter_le (f : Obj -> bool) p l :
  count_ptr p (filter f l) <= count_ptr p l.
Proof.
  induction l as [| e l IH]; simpl; [lia|].
  destruct (f e); rewrite ?count_ptr_cons; lia.
Qed.

Lemma count_ptr_pos_holds p l : 0 < count_ptr p l -> holds l p = true.
Proof.
  intros Hpos; destruct (holds l p) eqn:Hh; [reflexivity|].
  apply holds_false_iff, count_ptr_zero_iff in Hh; lia.
Qed.

Lemma In_holds l (m : Obj) : In m l -> holds l (Module_this m) = true.
Proof. intros Hin; apply holds_true_iff, in_map; assumption. Qed.

(** A candidate that the scan has not reached yet is still in the shared
    list after the candidates before it were removed. *)
Lemma candidate_survives (f : Obj -> bool) l stale (c : Obj) (rest : registry) :
  filter f l = stale ++ c :: rest ->
  holds (snd (Remove_ModuleList l stale)) (Module_this c) = true.
Proof.
  intros Hcands; apply count_ptr_pos_holds.
  destruct (Remove_ModuleList_loop_spec stale l 0) as [_ Hcount].
  unfold Remove_ModuleList; rewrite Hcount.
  pose proof (count_ptr_filter_le f (Module_this c) l) as Hle.
  rewrite Hcands, count_ptr_app, count_ptr_cons, Pos.eqb_refl in Hle; lia.
Qed.

(** Without an identifier the scan removes a prefix of the candidates and
    stops at the first one that passes the modification-time test. *)
Lemma GetSharedModule_scan_shape module_file_spec (cands : registry) old shared :
  exists stale tail,
    cands = stale ++ tail
    /\ GetSharedModule_scan None module_file_spec cands old shared
       = match tail with
         | [] => (scan_end,
                  mkScan None (record_first old stale)
                         (snd (Remove_ModuleList shared stale)))
         | c :: _ => (scan_return,
                      mkScan (Some c) (record_first old stale)
                             (snd (Remove_ModuleList shared stale)))
         end.
Proof.
  revert old shared; induction cands as [| c cands IH]; intros old shared.
  - exists [], []; split; reflexivity.
  - destruct (same_modification_time module_file_spec c) eqn:Hc.
    + exists [], (c :: cands); split; [reflexivity|].
      cbn [GetSharedModule_scan]; rewrite Hc; reflexivity.
    + destruct (IH (record_old_if_unset old c) (snd (Remove shared (Some c))))
        as [stale [tail [Hsplit Hscan]]].
      exists (c :: stale), tail; split; [cbn [app]; congruence|].
      cbn [GetSharedModule_scan]; rewrite Hc, Hscan.
      rewrite record_first_after, Remove_ModuleList_cons; reflexivity.
Qed.

Lemma record_first_recorded old stale (x : Obj) :
  record_first old stale = Some (Some x) ->
  old = Some (Some x) \/ In x stale.
Proof.
  destruct stale as [| c stale]; cbn [record_first]; [auto|].
  destruct old as [[y |] |]; cbn; intros Heq; [auto | | discriminate].
  injection Heq as <-; right; left; reflexivity.
Qed.

(** ** The three ways a run can end, and how runs compose *)

Lemma outcome_hit (uuid_ptr : option UUID) l next old did (m : Obj)
      (next' : ModulePtr) :
  holds l (Module_this m) = true ->
  (next <= next')%positive ->
  outcome uuid_ptr l next old did []
          (mkResult None (Some m) old did (mkShared l next')).
Proof.
  intros Hheld Hle; unfold outcome; cbn.
  split; [constructor|]. split; [reflexivity|]. split; [reflexivity|].
  split; [auto|]. split; [assumption|].
  left; repeat split; eauto.
Qed.

Lemma outcome_created (uuid_ptr : option UUID) l next old did (m : Obj) :
  (next <= Module_this m)%positive ->
  outcome uuid_ptr l next old did []
          (mkResult None (Some m) old (option_map (fun _ => true) did)
                    (mkShared (l ++ [m]) (Pos.succ (Module_this m)))).
Proof.
  intros Hle; unfold outcome; cbn.
  split; [constructor|]. split; [reflexivity|]. split; [reflexivity|].
  split; [auto|]. split; [lia|].
  right; left; repeat split; eauto.
Qed.

Lemma outcome_failed (uuid_ptr : option UUID) l next old did (error : Error)
      (module_sp : ModuleSP ModuleData) (next' : ModulePtr) :
  error <> None \/ module_sp = None ->
  (next <= next')%positive ->
  outcome uuid_ptr l next old did []
          (mkResult error module_sp old did (mkShared l next')).
Proof.
  intros Hfail Hle; unfold outcome; cbn.
  split; [constructor|]. split; [reflexivity|]. split; [reflexivity|].
  split; [auto|]. split; [assumption|].
  right; right; repeat split; auto.
Qed.

(** A run that follows the removal of [stale1] is a run on the list as it
    was before, with [stale1] removed first. *)
Lemma outcome_after_removal (uuid_ptr : option UUID) l next next1 old old1 did
      (stale1 stale2 : registry) (r : GetSharedModule_result) :
  (uuid_ptr <> None -> stale1 = []) ->
  Forall (fun x => In x l) stale1 ->
  (stale1 = [] -> old1 = old) ->
  (forall x, old1 = Some (Some x) -> old = Some (Some x) \/ In x stale1) ->
  (next <= next1)%positive ->
  outcome uuid_ptr (snd (Remove_ModuleList l stale1)) next1 old1 did stale2 r ->
  outcome uuid_ptr l next old did (stale1 ++ stale2) r.
Proof.
  intros Huuid Hin1 Hold1 Hrec1 Hle
         (Hin2 & Huuid2 & Hold2 & Hrec2 & Hnext & Hends).
  unfold outcome; rewrite Remove_ModuleList_app.
  split; [| split; [| split; [| split; [| split]]]].
  - apply Forall_app; split; [assumption|].
    eapply Forall_impl; [| exact Hin2].
    intros x Hx; eapply Remove_ModuleList_incl; exact Hx.
  - intros Hu; rewrite Huuid, Huuid2 by assumption; reflexivity.
  - intros Hnil; apply app_eq_nil in Hnil as [H1 H2].
    rewrite Hold2, Hold1 by assumption; reflexivity.
  - intros x Hx; destruct (Hrec2 x Hx) as [Hx1 | Hx2].
    + destruct (Hrec1 x Hx1) as [? | ?]; [left; assumption|].
      right; apply in_or_app; left; assumption.
    + right; apply in_or_app; right; assumption.
  - lia.
  - destruct Hends as [Hhit | [Hnew | Hfail]].
    + left; exact Hhit.
    + right; left.
      destruct Hnew as (He & (m & Hm & Hge & Hnx & Hl) & Hd).
      repeat split; try assumption.
      exists m; repeat split; try assumption; lia.
    + right; right; exact Hfail.
Qed.

Lemma GetSharedModule_locate_shape module_spec old did l next :
  exists stale,
    outcome (GetUUIDPtr module_spec) l next old did stale
            (GetSharedModule_locate module_spec old did l next).
Proof.
  unfold GetSharedModule_locate; rewrite FindModules_nil.
  set (file_spec := Symbols_LocateExecutableObjectFile module_spec).
  set (platform_module_spec := mkModuleSpec file_spec file_spec _ _).
  change (GetUUIDPtr platform_module_spec) with (GetUUIDPtr module_spec).
  destruct (negb (FileSpec_eqb file_spec (m_file module_spec)));
    [| exists []; apply outcome_failed; [right; reflexivity | lia]].
  destruct (negb (FileSpec_Exists file_spec));
    [exists []; apply outcome_failed; [right; reflexivity | lia] |].
  assert (Hcreate :
            forall l1 old1,
              outcome (GetUUIDPtr module_spec) l1 next old1 did []
                (let module := mkModule next (Module_new platform_module_spec) in
                 if Module_GetObjectFile module then
                   mkResult None (Some module) old1
                            (option_map (fun _ => true) did)
                            (mkShared (Append l1 (Some module)) (Pos.succ next))
                 else
                   mkResult
                     (if FileSpec_bool file_spec then
                        if ArchSpec_IsValid (m_arch module_spec) then
                          Some ("unable to open "
                                  ++ ArchSpec_GetArchitectureName
                                       (m_arch module_spec)
                                  ++ " architecture in '"
                                  ++ FileSpec_GetPath file_spec ++ "'")%string
                        else
                          Some ("unable to open '"
                                  ++ FileSpec_GetPath file_spec ++ "'")%string
                      else
                        if negb (is_empty_string
                                   (uuid_cstr_of (GetUUIDPtr module_spec)))
                        then
                          Some ("cannot locate a module for UUID '"
                                  ++ uuid_cstr_of (GetUUIDPtr module_spec)
                                  ++ "'")%string
                        else Some "cannot locate a module"%string)
                     (Some module) old1 did
                     (mkShared l1 (Pos.succ next)))).
  { intros l1 old1; cbn zeta.
    destruct (Module_GetObjectFile
                (mkModule next (Module_new platform_module_spec))).
    - apply (outcome_created _ l1 next old1 did
                             (mkModule next (Module_new platform_module_spec))).
      cbn; lia.
    - apply outcome_failed; [left | lia].
      repeat match goal with
             | |- context [if ?b then _ else _] => destruct b
             end; discriminate. }
  destruct (matching platform_module_spec l) as [| c rest] eqn:Hfound.
  - exists []; apply Hcreate.
  - assert (Hc : In c l).
    { assert (Hin : In c (matching platform_module_spec l))
        by (rewrite Hfound; left; reflexivity).
      apply filter_In in Hin; tauto. }
    cbn [length Nat.ltb Nat.leb].
    change (GetModuleAtIndex (c :: rest) 0) with (Some c).
    destruct (GetUUIDPtr module_spec) as [u |] eqn:Hu.
    + exists []; apply outcome_hit; [apply In_holds; assumption | lia].
    + destruct (TimeValue_IsValid (FileSpec_GetModificationTime file_spec));
        [| exists []; apply outcome_hit; [apply In_holds; assumption | lia]].
      destruct (negb (TimeValue_eqb (FileSpec_GetModificationTime file_spec)
                                    (Module_GetModificationTime c)));
        [| exists []; apply outcome_hit; [apply In_holds; assumption | lia]].
      exists ([c] ++ []).
      apply (outcome_after_removal
               None l next next old
               (option_map (fun _ => Some c) old) did [c] []).
      * congruence.
      * repeat constructor; assumption.
      * discriminate.
      * intros x Hx; right; left.
        destruct old; cbn in Hx; congruence.
      * lia.
      * rewrite Remove_ModuleList_one; apply Hcreate.
Qed.

Lemma GetSharedModule_create_shape module_spec old did l next :
  exists stale,
    outcome (GetUUIDPtr module_spec) l next old did stale
            (GetSharedModule_create module_spec old did l next).
Proof.
  assert (Hlocate :
            exists stale,
              outcome (GetUUIDPtr module_spec) l next old did stale
                      (GetSharedModule_locate module_spec old did l
                                              (Pos.succ next))).
  { destruct (GetSharedModule_locate_shape module_spec old did l
                                           (Pos.succ next)) as [stale Hout].
    exists ([] ++ stale).
    apply (outcome_after_removal _ l next (Pos.succ next) old old did []
                                 stale);
      [auto | constructor | auto | auto | lia | exact Hout]. }
  unfold GetSharedModule_create.
  destruct (Module_GetObjectFile (mkModule next (Module_new module_spec)));
    [| exact Hlocate].
  destruct (match GetUUIDPtr module_spec with
            | Some uuid =>
                negb (UUID_eqb uuid
                        (Module_GetUUID (mkModule next (Module_new module_spec))))
            | None => false
            end); [exact Hlocate|].
  exists [].
  apply (outcome_created _ l next old did
                         (mkModule next (Module_new module_spec))).
  cbn; lia.
Qed.

(** Every run of [GetSharedModule] ends in one of the three ways. *)
Lemma GetSharedModule_shape module_spec paths old did (always_create : bool) st :
  exists stale,
    outcome (GetUUIDPtr module_spec) (g_shared_module_list st)
            (next_address st) (option_map (fun _ => None) old)
            (option_map (fun _ => false) did) stale
            (GetSharedModule module_spec paths old did always_create st).
Proof.
  unfold GetSharedModule.
  set (old0 := option_map (fun _ => @None Obj) old).
  set (did0 := option_map (fun _ => false) did).
  set (l := g_shared_module_list st).
  destruct always_create; cbn [negb].
  { cbn; apply GetSharedModule_create_shape. }
  unfold GetSharedModule_search; rewrite FindModules_nil.
  destruct (matching module_spec l) as [| c0 rest0] eqn:Hcands.
  { cbn; apply GetSharedModule_create_shape. }
  rewrite <- Hcands, firstn_all.
  assert (Hpos : (0 <? length (matching module_spec l)) = true)
    by (rewrite Hcands; reflexivity).
  rewrite Hpos; clear Hpos.
  destruct (GetUUIDPtr module_spec) as [u |] eqn:Hu.
  - rewrite Hcands; cbn.
    exists []; apply outcome_hit; [| lia].
    apply In_holds.
    assert (Hin : In c0 (matching module_spec l))
      by (rewrite Hcands; left; reflexivity).
    apply filter_In in Hin; tauto.
  - destruct (GetSharedModule_scan_shape (m_file module_spec)
                                         (matching module_spec l) old0 l)
      as [stale [tail [Hsplit Hscan]]].
    rewrite Hscan.
    assert (Hin : Forall (fun x => In x l) stale).
    { apply Forall_forall; intros x Hx.
      assert (Hx' : In x (matching module_spec l))
        by (rewrite Hsplit; apply in_or_app; left; assumption).
      apply filter_In in Hx'; tauto. }
    destruct tail as [| c tail]; cbn.
    + destruct (GetSharedModule_create_shape
                  module_spec (record_first old0 stale) did0
                  (snd (Remove_ModuleList l stale)) (next_address st))
        as [stale2 Hout].
      rewrite Hu in Hout.
      exists (stale ++ stale2).
      apply (outcome_after_removal None l (next_address st) (next_address st)
                                   old0 (record_first old0 stale) did0 stale
                                   stale2);
        [congruence | exact Hin | intros ->; reflexivity
         | apply record_first_recorded | lia | exact Hout].
    + exists (stale ++ []).
      apply (outcome_after_removal None l (next_address st) (next_address st)
                                   old0 (record_first old0 stale) did0 stale
                                   []);
        [congruence | exact Hin | intros ->; reflexivity
         | apply record_first_recorded | lia |].
      apply outcome_hit; [| lia].
      apply (candidate_survives
               (fun m => Module_MatchesModuleSpec m module_spec) l stale c
               tail); assumption.
Qed.

Lemma ModuleIsInCache_holds p st :
  ModuleIsInCache (Some p) st = holds (g_shared_module_list st) p.
Proof.
  unfold ModuleIsInCache.
  destruct (holds (g_shared_module_list st) p) eqn:Hh.
  - destruct (FindModule_ptr_held _ _ Hh) as [e [He _]]; rewrite He.
    reflexivity.
  - rewrite FindModule_ptr_not_held by assumption; reflexivity.
Qed.

Lemma Remove_returns_holds l (m : Obj) :
  fst (Remove l (Some m)) = holds l (Module_this m).
Proof.
  simpl; destruct (Remove_scan l m) as [l' |] eqn:Hscan; simpl.
  - destruct (holds l (Module_this m)) eqn:Hh; [reflexivity|].
    apply Remove_scan_None in Hh; congruence.
  - apply Remove_scan_None in Hscan; congruence.
Qed.

(** X13: a module that [GetSharedModule] hands out without an error is in
    the shared cache when the call returns: [ModuleIsInCache] says so, and
    [RemoveSharedModule] called with it finds an entry to remove. *)
Theorem GetSharedModule_hands_out_cached_modules module_spec paths old did
        (always_create : bool) st (m : Obj) :
  res_error (GetSharedModule module_spec paths old did always_create st)
  = None ->
  res_module_sp (GetSharedModule module_spec paths old did always_create st)
  = Some m ->
  ModuleIsInCache
    (Some (Module_this m))
    (res_shared (GetSharedModule module_spec paths old did always_create st))
  = true
  /\ fst (RemoveSharedModule
            (Some m)
            (res_shared
               (GetSharedModule module_spec paths old did always_create st)))
     = true.
Proof.
  intros Herr Hm.
  destruct (GetSharedModule_shape module_spec paths old did always_create st)
    as [stale (_ & _ & _ & _ & _ & Hends)].
  assert (Hheld :
            holds (g_shared_module_list
                     (res_shared (GetSharedModule module_spec paths old did
                                                  always_create st)))
                  (Module_this m) = true).
  { destruct Hends as [(_ & (x & Hx & Hh) & Hl & _)
                      | [(_ & (x & Hx & _ & _ & Hl) & _)
                        | ([Hfail | Hnone] & _)]].
    - rewrite Hl; congruence.
    - rewrite Hl; replace m with x by congruence; apply holds_app_self.
    - contradiction.
    - congruence. }
  split.
  - rewrite ModuleIsInCache_holds; exact Hheld.
  - unfold RemoveSharedModule.
    pose proof (Remove_returns_holds
                  (g_shared_module_list
                     (res_shared (GetSharedModule module_spec paths old did
                                                  always_create st))) m)
      as Hrem.
    destruct (Remove _ (Some m)) as [removed l']; cbn in *; congruence.
Qed.


(** X15: with a valid identifier in the spec, [GetSharedModule] never
    removes a module from the shared cache and leaves the old-module output
    empty: after the call the cache is as it was, or as it was with the
    module handed out appended. *)
Theorem GetSharedModule_with_identifier_never_evicts module_spec paths old did
        (always_create : bool) st (u : UUID) :
  GetUUIDPtr module_spec = Some u ->
  res_old_module_sp_ptr
    (GetSharedModule module_spec paths old did always_create st)
  = option_map (fun _ => None) old
  /\ (g_shared_module_list
        (res_shared (GetSharedModule module_spec paths old did always_create st))
      = g_shared_module_list st
      \/ exists m : Obj,
          res_module_sp
            (GetSharedModule module_spec paths old did always_create st)
          = Some m
          /\ g_shared_module_list
               (res_shared
                  (GetSharedModule module_spec paths old did always_create st))
             = g_shared_module_list st ++ [m]).
Proof.
  intros Hu.
  destruct (GetSharedModule_shape module_spec paths old did always_create st)
    as [stale (_ & Huuid & Hold & _ & _ & Hends)].
  assert (Hnil : stale = []) by (apply Huuid; congruence).
  subst stale; rewrite Remove_ModuleList_nil in Hends.
  split; [apply Hold; reflexivity|].
  destruct Hends as [(_ & _ & Hl & _)
                    | [(_ & (m & Hm & _ & _ & Hl) & _)
                      | (_ & Hl & _)]]; eauto.
Qed.

Lemma Forall_below_incl (l l' : registry) next next' :
  Forall (fun e : Obj => (Module_this e < next)%positive) l ->
  incl l' l -> (next <= next')%positive ->
  Forall (fun e : Obj => (Module_this e < next')%positive) l'.
Proof.
  intros Hall Hincl Hle; apply Forall_forall; intros e He.
  apply Hincl in He; rewrite Forall_forall in Hall.
  specialize (Hall e He); lia.
Qed.

Lemma below_not_held l next (m : Obj) :
  Forall (fun e : Obj => (Module_this e < next)%positive) l ->
  (next <= Module_this m)%positive ->
  holds l (Module_this m) = false.
Proof.
  intros Hall Hge; apply holds_false_iff; intros Hin.
  apply in_map_iff in Hin as [e [He Hin]].
  rewrite Forall_forall in Hall; specialize (Hall e Hin); lia.
Qed.

(** X16: [GetSharedModule] keeps the shared cache free of duplicates: if no
    two entries are for the same module object and every entry lies at an
    address handed out earlier, the same holds after the call, whatever
    its arguments and however it ends. *)
Theorem GetSharedModule_keeps_cache_distinct module_spec paths old did
        (always_create : bool) st :
  cache_distinct st ->
  cache_distinct
    (res_shared (GetSharedModule module_spec paths old did always_create st)).
Proof.
  intros [Hnd Hbelow].
  destruct (GetSharedModule_shape module_spec paths old did always_create st)
    as [stale (_ & _ & _ & _ & Hnext & Hends)].
  set (r := GetSharedModule module_spec paths old did always_create st) in *.
  set (l0 := snd (Remove_ModuleList (g_shared_module_list st) stale)) in *.
  assert (Hnd0 : NoDup (map Module_this l0)).
  { unfold l0, Remove_ModuleList.
    rewrite Remove_ModuleList_loop_NoDup by assumption.
    apply NoDup_map_filter; assumption. }
  assert (Hincl : incl l0 (g_shared_module_list st))
    by apply Remove_ModuleList_incl.
  unfold cache_distinct.
  destruct Hends as [(_ & _ & Hl & _)
                    | [(_ & (m & _ & Hge & Hnx & Hl) & _)
                      | (_ & Hl & _)]]; rewrite Hl.
  - split; [assumption|].
    eapply Forall_below_incl; eassumption.
  - split.
    + apply NoDup_map_snoc; [assumption|].
      apply (below_not_held l0 (next_address st)); [| assumption].
      eapply Forall_below_incl; [eassumption | assumption | lia].
    + apply Forall_app; split.
      * eapply Forall_below_incl; [eassumption | assumption | lia].
      * constructor; [lia | constructor].
  - split; [assumption|].
    eapply Forall_below_incl; eassumption.
Qed.

(** X17: a module that [GetSharedModule] reports through the old-module
    output was in the shared cache before the call, and the spec carried no
    valid identifier; if the cache held no module twice, it no longer holds
    that module when the call returns. *)
Theorem GetSharedModule_old_module_was_evicted module_spec paths old did
        (always_create : bool) st (x : Obj) :
  res_old_module_sp_ptr
    (GetSharedModule module_spec paths old did always_create st)
  = Some (Some x) ->
  In x (g_shared_module_list st)
  /\ GetUUIDPtr module_spec = None
  /\ (cache_distinct st ->
      holds (g_shared_module_list
               (res_shared
                  (GetSharedModule module_spec paths old did always_create st)))
            (Module_this x) = false).
Proof.
  intros Hold.
  destruct (GetSharedModule_shape module_spec paths old did always_create st)
    as [stale (Hin & Huuid & _ & Hrec & _ & Hends)].
  destruct (Hrec x Hold) as [Hbad | Hx];
    [destruct old; discriminate|].
  rewrite Forall_forall in Hin.
  split; [apply Hin; assumption|]. split.
  - destruct (GetUUIDPtr module_spec) as [u |]; [| reflexivity].
    rewrite Huuid in Hx by discriminate; contradiction.
  - intros [Hnd Hbelow].
    set (l0 := snd (Remove_ModuleList (g_shared_module_list st) stale)) in *.
    assert (Hgone : holds l0 (Module_this x) = false).
    { unfold l0, Remove_ModuleList.
      rewrite Remove_ModuleList_loop_NoDup by assumption.
      apply holds_false_iff; intros Hheld.
      apply in_map_iff in Hheld as [e [He Hfe]].
      apply filter_In in Hfe as [_ Hkeep].
      apply negb_true_iff in Hkeep.
      rewrite He, (In_holds stale x Hx) in Hkeep; discriminate. }
    destruct Hends as [(_ & _ & Hl & _)
                      | [(_ & (m & _ & Hge & _ & Hl) & _)
                        | (_ & Hl & _)]]; rewrite Hl; try assumption.
    unfold holds; rewrite existsb_app; fold (holds l0 (Module_this x)).
    rewrite Hgone; cbn.
    rewrite orb_false_r; apply Pos.eqb_neq; intros Heq.
    rewrite Forall_forall in Hbelow.
    specialize (Hbelow x (Hin x Hx)); lia.
Qed.

(** ** Two calls in a row with a spec that has a path only *)

Lemma filter_filter_swap (f g : Obj -> bool) l :
  filter f (filter g l) = filter g (filter f l).
Proof.
  induction l as [| e l IH]; simpl; [reflexivity|].
  destruct (f e) eqn:Hf, (g e) eqn:Hg; simpl; rewrite ?Hf, ?Hg, IH;
    reflexivity.
Qed.

Lemma NoDup_app_disjoint (s1 s2 : list ModulePtr) (a : ModulePtr) :
  NoDup (s1 ++ s2) -> In a s1 -> In a s2 -> False.
Proof.
  induction s1 as [| x s1 IH]; simpl; intros Hnd H1 H2; [contradiction|].
  inversion Hnd as [| ? ? Hx Hnd']; subst.
  destruct H1 as [-> | H1]; [| auto].
  apply Hx, in_or_app; right; assumption.
Qed.

(** In a cache without duplicates, once the candidates [stale] are removed
    the modules that still match are the candidates behind them. *)
Lemma matching_after_removal module_spec l stale (tail : registry) :
  NoDup (map Module_this l) ->
  matching module_spec l = stale ++ tail ->
  matching module_spec (snd (Remove_ModuleList l stale)) = tail.
Proof.
  intros Hnd Hsplit; unfold Remove_ModuleList.
  rewrite Remove_ModuleList_loop_NoDup by assumption.
  rewrite filter_filter_swap, Hsplit, filter_app.
  assert (Hnd' : NoDup (map Module_this (stale ++ tail))).
  { rewrite <- Hsplit; apply NoDup_map_filter; assumption. }
  rewrite map_app in Hnd'.
  assert (Hstale : forall s : registry,
             incl s stale ->
             filter (fun e => negb (holds stale (Module_this e))) s = []).
  { induction s as [| e s IH]; intros Hincl; [reflexivity|].
    cbn [filter].
    rewrite In_holds by (apply Hincl; left; reflexivity).
    apply IH; intros x Hx; apply Hincl; right; assumption. }
  rewrite (Hstale stale (incl_refl stale)); cbn [app].
  apply forallb_filter_id, forallb_forall; intros e He.
  apply negb_true_iff, holds_false_iff; intros Hin.
  apply (NoDup_app_disjoint _ _ (Module_this e) Hnd' Hin).
  apply in_map; assumption.
Qed.

(** Without an identifier, a call whose first candidate passes the
    modification-time test returns it and changes nothing. *)
Lemma GetSharedModule_fresh_hit module_spec paths old did st (c : Obj)
      (rest : registry) :
  GetUUIDPtr module_spec = None ->
  matching module_spec (g_shared_module_list st) = c :: rest ->
  same_modification_time (m_file module_spec) c = true ->
  GetSharedModule module_spec paths old did false st =
  mkResult None (Some c) (option_map (fun _ => None) old)
           (option_map (fun _ => false) did) st.
Proof.
  intros Hu Hcands Hfresh; unfold GetSharedModule; cbn [negb].
  unfold GetSharedModule_search; rewrite FindModules_nil, Hu, Hcands.
  cbn; rewrite Hfresh; destruct st; reflexivity.
Qed.

(** A successful run of the construction part either appended the module it
    hands out or found it in the list. *)
Lemma GetSharedModule_locate_success module_spec old did l next (m : Obj) :
  res_error (GetSharedModule_locate module_spec old did l next) = None ->
  res_module_sp (GetSharedModule_locate module_spec old did l next) = Some m ->
  (exists l', incl l' l /\
              g_shared_module_list
                (res_shared (GetSharedModule_locate module_spec old did l next))
              = l' ++ [m])
  \/ In m l.
Proof.
  unfold GetSharedModule_locate; rewrite FindModules_nil.
  set (file_spec := Symbols_LocateExecutableObjectFile module_spec).
  set (platform_module_spec := mkModuleSpec file_spec file_spec _ _).
  destruct (negb (FileSpec_eqb file_spec (m_file module_spec)));
    [| cbn; discriminate].
  destruct (negb (FileSpec_Exists file_spec)); [cbn; discriminate|].
  destruct (matching platform_module_spec l) as [| c rest] eqn:Hfound.
  - cbn.
    destruct (Module_GetObjectFile
                (mkModule next (Module_new platform_module_spec))); cbn.
    + intros _ Hm; injection Hm as <-; left.
      exists l; split; [apply incl_refl | reflexivity].
    + repeat match goal with
             | |- context [if ?b then _ else _] => destruct b
             end; discriminate.
  - assert (Hc : In c l).
    { assert (Hin : In c (matching platform_module_spec l))
        by (rewrite Hfound; left; reflexivity).
      apply filter_In in Hin; tauto. }
    cbn [length Nat.ltb Nat.leb].
    change (GetModuleAtIndex (c :: rest) 0) with (Some c).
    destruct (GetUUIDPtr platform_module_spec);
      [cbn; intros _ Hm; injection Hm as <-; right; assumption|].
    destruct (TimeValue_IsValid (FileSpec_GetModificationTime file_spec));
      [| cbn; intros _ Hm; injection Hm as <-; right; assumption].
    destruct (negb (TimeValue_eqb (FileSpec_GetModificationTime file_spec)
                                  (Module_GetModificationTime c)));
      [| cbn; intros _ Hm; injection Hm as <-; right; assumption].
    cbn.
    destruct (Module_GetObjectFile
                (mkModule next (Module_new platform_module_spec))); cbn.
    + intros _ Hm; injection Hm as <-; left.
      exists (snd (Remove l (Some c))); split; [apply Remove_incl|].
      reflexivity.
    + repeat match goal with
             | |- context [if ?b then _ else _] => destruct b
             end; discriminate.
Qed.

Lemma GetSharedModule_create_success module_spec old did l next (m : Obj) :
  res_error (GetSharedModule_create module_spec old did l next) = None ->
  res_module_sp (GetSharedModule_create module_spec old did l next) = Some m ->
  (exists l', incl l' l /\
              g_shared_module_list
                (res_shared (GetSharedModule_create module_spec old did l next))
              = l' ++ [m])
  \/ In m l.
Proof.
  unfold GetSharedModule_create.
  destruct (Module_GetObjectFile (mkModule next (Module_new module_spec)));
    [| apply GetSharedModule_locate_success].
  destruct (match GetUUIDPtr module_spec with
            | Some uuid =>
                negb (UUID_eqb uuid
                        (Module_GetUUID (mkModule next (Module_new module_spec))))
            | None => false
            end); [apply GetSharedModule_locate_success|].
  cbn; intros _ Hm; injection Hm as <-; left.
  exists l; split; [apply incl_refl | reflexivity].
Qed.

Lemma matching_nil_incl module_spec (l l' : registry) :
  matching module_spec l = [] -> incl l' l -> matching module_spec l' = [].
Proof.
  intros Hnil Hincl; induction l' as [| e l' IH]; [reflexivity|].
  cbn [filter].
  destruct (Module_MatchesModuleSpec e module_spec) eqn:He.
  - assert (Hin : In e (matching module_spec l))
      by (apply filter_In; split; [apply Hincl; left; reflexivity | exact He]).
    rewrite Hnil in Hin; contradiction.
  - apply IH; intros x Hx; apply Hincl; right; assumption.
Qed.

(** X18: with a spec that has a path and no valid identifier, on a cache
    that holds no module twice: if a call succeeds and the module it returns
    matches the spec and carries the modification time the path has now,
    the next call with that spec returns the same module, reports it as not
    newly created, leaves the cache as it was and leaves the old-module
    output, when supplied, reset to empty. *)
Theorem GetSharedModule_twice_same_module_by_path module_spec paths1 paths2
        old1 old2 did1 did2 st (m : Obj) :
  GetUUIDPtr module_spec = None ->
  NoDup (map Module_this (g_shared_module_list st)) ->
  res_error (GetSharedModule module_spec paths1 old1 did1 false st) = None ->
  res_module_sp (GetSharedModule module_spec paths1 old1 did1 false st)
  = Some m ->
  Module_MatchesModuleSpec m module_spec = true ->
  same_modification_time (m_file module_spec) m = true ->
  GetSharedModule module_spec paths2 old2 did2 false
                  (res_shared
                     (GetSharedModule module_spec paths1 old1 did1 false st))
  = mkResult None (Some m) (option_map (fun _ => None) old2)
             (option_map (fun _ => false) did2)
             (res_shared
                (GetSharedModule module_spec paths1 old1 did1 false st)).
Proof.
  intros Hu Hnd Herr Hm Hmatch Hfresh.
  set (l := g_shared_module_list st) in *.
  set (old0 := option_map (fun _ => @None Obj) old1).
  destruct (GetSharedModule_scan_shape (m_file module_spec)
                                       (matching module_spec l) old0 l)
    as [stale [tail [Hsplit Hscan]]].
  pose proof (matching_after_removal module_spec l stale tail Hnd Hsplit)
    as Hafter.
  assert (Hr1 :
            GetSharedModule module_spec paths1 old1 did1 false st
            = match tail with
              | [] =>
                  GetSharedModule_create
                    module_spec (record_first old0 stale)
                    (option_map (fun _ => false) did1)
                    (snd (Remove_ModuleList l stale)) (next_address st)
              | c :: _ =>
                  mkResult None (Some c) (record_first old0 stale)
                           (option_map (fun _ => false) did1)
                           (mkShared (snd (Remove_ModuleList l stale))
                                     (next_address st))
              end).
  { unfold GetSharedModule; cbn [negb].
    unfold GetSharedModule_search; rewrite FindModules_nil, Hu.
    fold l; fold old0.
    destruct (matching module_spec l) as [| c0 rest0] eqn:Hcands.
    - destruct stale; [| discriminate]. destruct tail; [| discriminate].
      reflexivity.
    - rewrite <- Hcands, firstn_all in *.
      assert (Hpos : (0 <? length (matching module_spec l)) = true)
        by (rewrite Hcands; reflexivity).
      rewrite Hpos, Hscan; destruct tail; reflexivity. }
  rewrite Hr1 in *; clear Hr1.
  destruct tail as [| c tail].
  - destruct (GetSharedModule_create_success _ _ _ _ _ m Herr Hm)
      as [[l' [Hincl Hl']] | Hin].
    + apply (GetSharedModule_fresh_hit _ _ _ _ _ m []); try assumption.
      rewrite Hl', filter_app.
      rewrite (matching_nil_incl module_spec _ l' Hafter Hincl).
      cbn; rewrite Hmatch; reflexivity.
    + assert (Hin' : In m (matching module_spec
                                    (snd (Remove_ModuleList l stale))))
        by (apply filter_In; split; assumption).
      rewrite Hafter in Hin'; contradiction.
  - cbn in Hm; injection Hm as ->.
    apply (GetSharedModule_fresh_hit _ _ _ _ _ m tail); assumption.
Qed.

(** X19: with a spec that has no valid identifier, when every cached
    module that matches the spec fails the modification-time test and a
    module can be constructed from the spec, the call removes all of them
    from the cache, constructs the module at the next free address, appends
    it, reports it as newly created, and records the first module removed in
    the old-module output. *)
Theorem GetSharedModule_replaces_stale_modules module_spec paths
        (old_module_sp : ModuleSP ModuleData) (did_create : bool) st :
  GetUUIDPtr module_spec = None ->
  Forall (fun m => same_modification_time (m_file module_spec) m = false)
         (matching module_spec (g_shared_module_list st)) ->
  Module_GetObjectFile (mkModule (next_address st) (Module_new module_spec))
  = true ->
  GetSharedModule module_spec paths (Some old_module_sp) (Some did_create)
                  false st
  = mkResult None
             (Some (mkModule (next_address st) (Module_new module_spec)))
             (Some (hd_error (matching module_spec (g_shared_module_list st))))
             (Some true)
             (mkShared
                (snd (Remove_ModuleList
                        (g_shared_module_list st)
                        (matching module_spec (g_shared_module_list st)))
                   ++ [mkModule (next_address st) (Module_new module_spec)])
                (Pos.succ (next_address st))).
Proof.
  intros Hu Hstale Hobj; unfold GetSharedModule; cbn [negb option_map].
  unfold GetSharedModule_search; rewrite FindModules_nil, Hu.
  set (l := g_shared_module_list st) in *.
  assert (Hscan :
            (if 0 <? length (matching module_spec l)
             then GetSharedModule_scan
                    None (m_file module_spec)
                    (firstn (length (matching module_spec l))
                            (matching module_spec l))
                    (Some None) l
             else (scan_end, mkScan None (Some None) l))
            = (scan_end,
               mkScan None
                      (Some (hd_error (matching module_spec l)))
                      (snd (Remove_ModuleList l (matching module_spec l))))).
  { rewrite firstn_all.
    rewrite <- (app_nil_r (matching module_spec l)) at 2.
    rewrite GetSharedModule_scan_retires by assumption.
    destruct (matching module_spec l) as [| c rest]; reflexivity. }
  rewrite Hscan; cbn.
  unfold GetSharedModule_create; rewrite Hobj, Hu; reflexivity.
Qed.

(** X20: a call of [GetSharedModule] that returns an error has appended
    nothing to the shared cache (every entry was there before the call) and
    does not report a module as newly created. *)
Theorem GetSharedModule_error_appends_nothing module_spec paths old did
        (always_create : bool) st :
  res_error (GetSharedModule module_spec paths old did always_create st)
  <> None ->
  incl (g_shared_module_list
          (res_shared
             (GetSharedModule module_spec paths old did always_create st)))
       (g_shared_module_list st)
  /\ res_did_create_ptr
       (GetSharedModule module_spec paths old did always_create st)
     = option_map (fun _ => false) did.
Proof.
  intros Herr.
  destruct (GetSharedModule_shape module_spec paths old did always_create st)
    as [stale (_ & _ & _ & _ & _ & Hends)].
  destruct Hends as [(He & _) | [(He & _) | (_ & Hl & Hd)]];
    try contradiction.
  rewrite Hl; split; [apply Remove_ModuleList_incl | exact Hd].
Qed.

End CacheLaws.

(** * The further properties at work in the concrete world *)

Import ScenarioQueries.

Lemma Append_then_GetModuleAtIndex_witness :
  (1 < N.of_nat (GetSize [module_A; module_B]))%N
  /\ GetModuleAtIndex (Append [module_A; module_B] (Some module_C)) 1
     = GetModuleAtIndex [module_A; module_B] 1.
Proof.
  split; [reflexivity|].
  apply (proj2 (proj2 (Append_then_GetModuleAtIndex [module_A; module_B]
                                                    module_C))).
  reflexivity.
Defined.

Lemma Remove_erases_first_entry_witness :
  Remove ([module_A] ++ module_B :: [module_C; module_B]) (Some module_B)
  = (true, [module_A] ++ [module_C; module_B])
  /\ Remove [module_A] (Some module_B) = (false, [module_A]).
Proof.
  destruct (Remove_erases_first_entry [module_A] module_B [module_C; module_B]
                                      module_B [module_A]) as [Hfirst Hnone].
  split; [apply Hfirst | apply Hnone]; reflexivity.
Defined.

Lemma AppendIfNeeded_and_Remove_keep_distinct_witness :
  NoDup (map Module_this [module_A; module_B])
  /\ NoDup (map Module_this
                (snd (AppendIfNeeded [module_A; module_B] (Some module_C))))
  /\ holds (snd (Remove [module_A; module_B] (Some module_B)))
           (Module_this module_B) = false.
Proof.
  assert (Hnd : NoDup (map Module_this [module_A; module_B])).
  { simpl; repeat constructor; simpl; intuition discriminate. }
  destruct (AppendIfNeeded_and_Remove_keep_distinct
              [module_A; module_B] (Some module_C) module_B Hnd)
    as (Happ & _ & Hgone).
  repeat split; assumption.
Defined.

Lemma Remove_ModuleList_empties_witness :
  (forall p, count_ptr p [module_A; module_B]
             <= count_ptr p [module_B; module_C; module_A])
  /\ Remove_ModuleList [module_A; module_B] [module_B; module_C; module_A]
     = (2, []).
Proof.
  assert (Hle : forall p, count_ptr p [module_A; module_B]
                          <= count_ptr p [module_B; module_C; module_A]).
  { intros p; rewrite !count_ptr_cons; lia. }
  split; [exact Hle|].
  apply (Remove_ModuleList_empties [module_A; module_B]
                                   [module_B; module_C; module_A] Hle).
Defined.

Lemma GetIndexForModule_round_trip_witness :
  (holds [module_A; module_B] 3%positive = false
   /\ GetIndexForModule 4294967295%N [module_A; module_B] (Some 3%positive)
      = 4294967295%N)
  /\ (holds [module_A; module_B] 2%positive = true
      /\ GetModulePointerAtIndex
           [module_A; module_B]
           (GetIndexForModule 4294967295%N [module_A; module_B]
                              (Some 2%positive))
         = Some 2%positive).
Proof.
  destruct (GetIndexForModule_round_trip
              (MI := interface) 4294967295%N [module_A; module_B] 3%positive)
    as (_ & Hmiss & _).
  destruct (GetIndexForModule_round_trip
              (MI := interface) 4294967295%N [module_A; module_B] 2%positive)
    as (_ & _ & Hheld).
  split; (split; [reflexivity|]).
  - apply Hmiss; reflexivity.
  - apply Hheld; [reflexivity | vm_compute; discriminate].
Defined.

Lemma FindFirstModule_is_first_of_FindModules_witness :
  fst (FindModules [module_C] spec_path_only []) = 0
  /\ FindFirstModule [module_C] spec_path_only = None.
Proof.
  split; [reflexivity|].
  apply (proj2 (FindFirstModule_is_first_of_FindModules
                  (MI := interface) [module_C] spec_path_only)).
  reflexivity.
Defined.

Lemma FindModule_uuid_finds_equal_identifier_witness :
  FindModule_uuid [module_A; module_C] 0%N = None
  /\ (FindModule_uuid [module_A; module_C] 9%N = Some module_C
      /\ UUID_eqb (Module_GetUUID module_C) 9%N = true)
  /\ (FindModule_uuid [module_A] 9%N = None
      /\ UUID_eqb (Module_GetUUID module_A) 9%N = false).
Proof.
  destruct (FindModule_uuid_finds_equal_identifier
              (MI := interface) [module_A; module_C] 0%N) as (Hinvalid & _).
  destruct (FindModule_uuid_finds_equal_identifier
              (MI := interface) [module_A; module_C] 9%N) as (_ & Hfound & _).
  destruct (FindModule_uuid_finds_equal_identifier
              (MI := interface) [module_A] 9%N) as (_ & _ & Hnone).
  split; [apply Hinvalid; reflexivity|]. split.
  - split; [reflexivity|]. apply (Hfound module_C); reflexivity.
  - split; [reflexivity|].
    apply Hnone; [reflexivity | reflexivity | left; reflexivity].
Defined.

Lemma FindSymbols_return_the_number_added_witness :
  FindSymbolsWithNameAndType [module_A; module_B] "main"%string 0%N
                             [any_context] true
  = (2%N, [any_context] ++ [context_of module_A; context_of module_B])
  /\ FindSymbolsMatchingRegExAndType [module_A; module_B] "m.*"%string 0%N
                                     [any_context] false
     = (2%N, [context_of module_A; context_of module_B]).
Proof.
  destruct (FindSymbols_return_the_number_added
              (MI := interface) [module_A; module_B] "main"%string
              "m.*"%string 0%N [any_context] true
              (fun e => [context_of e]) (fun e => [context_of e]))
    as (Hname & _).
  destruct (FindSymbols_return_the_number_added
              (MI := interface) [module_A; module_B] "main"%string
              "m.*"%string 0%N [any_context] false
              (fun e => [context_of e]) (fun e => [context_of e]))
    as (_ & Hregex).
  split.
  - apply Hname; intros e acc _; reflexivity.
  - apply Hregex; intros e acc _; reflexivity.
Defined.

Lemma FindGlobalVariables_with_append_returns_number_added_witness :
  FindGlobalVariables (MI := ScenarioReports.reports)
                      [ScenarioReports.module_P; ScenarioReports.module_Q;
                       ScenarioReports.module_R]
                      "g"%string true 10 [1%N; 2%N]
  = (3%N, [1; 2; 100; 101; 200]%N)
  /\ FindGlobalVariables_regex (MI := ScenarioReports.reports)
                               [ScenarioReports.module_P;
                                ScenarioReports.module_Q;
                                ScenarioReports.module_R]
                               "g.*"%string true 10 [1%N; 2%N]
     = (3%N, [1; 2; 100; 101; 200]%N).
Proof.
  destruct (FindGlobalVariables_with_append_returns_number_added
              (MI := ScenarioReports.reports)
              [ScenarioReports.module_P; ScenarioReports.module_Q;
               ScenarioReports.module_R]
              "g"%string "g.*"%string 10%N [1%N; 2%N]
              (fun e => ScenarioReports.globals (Module_data e))
              (fun e => ScenarioReports.globals (Module_data e)))
    as (Hname & Hregex).
  split.
  - apply Hname; intros e acc _; reflexivity.
  - apply Hregex; intros e acc _; reflexivity.
Defined.

Lemma FindTypes_for_a_module_not_held_witness :
  get (SymbolContext_module_sp (context_of module_C)) = Some 3%positive
  /\ holds [module_A; module_B] 3%positive = false
  /\ FindTypes [module_A; module_B] (context_of module_C) "T"%string true 5
               [7%N]
     = mkFindTypes 0 [7%N] [].
Proof.
  split; [reflexivity|]. split; [reflexivity|].
  apply (FindTypes_for_a_module_not_held
           (MI := interface) [module_A; module_B] (context_of module_C)
           "T"%string true 5%N [7%N] 3%positive); reflexivity.
Defined.

Lemma FindSourceFile_and_ResolveFileAddress_first_match_witness :
  FindSourceFile find_source ([module_A] ++ module_C :: [module_B])
                 "main.c"%string EmptyString
  = (true, "/src/main.c"%string)
  /\ FindSourceFile find_source [module_A] "main.c"%string EmptyString
     = (false, EmptyString)
  /\ ResolveFileAddress resolve_file_address
                        ([module_A] ++ module_B :: [module_C]) 217
                        (mkAddress None 0)
     = (true, mkAddress (Some module_B) 17)
  /\ ResolveFileAddress resolve_file_address [module_A] 217 (mkAddress None 0)
     = (false, mkAddress None 0).
Proof.
  assert (Hone : forall (P : ModuleObject Data -> list (ModuleObject Data)
                             -> Prop),
             P module_A [] ->
             forall pre1 e pre2, [module_A] = pre1 ++ e :: pre2 -> P e pre1).
  { intros P HP pre1 e pre2 Heq.
    destruct pre1 as [| y pre1]; cbn in Heq.
    - injection Heq as <- _; exact HP.
    - injection Heq as _ Heq; destruct pre1; discriminate. }
  destruct (FindSourceFile_and_ResolveFileAddress_first_match
              (MI := interface) so_address find_source resolve_file_address
              [module_A] module_C [module_B] "main.c"%string EmptyString
              217%N (mkAddress None 0)) as (Hsource & _).
  destruct (FindSourceFile_and_ResolveFileAddress_first_match
              (MI := interface) so_address find_source resolve_file_address
              [module_A] module_B [module_C] "main.c"%string EmptyString
              217%N (mkAddress None 0)) as (_ & Haddress).
  destruct Hsource as [Hsrc_hit Hsrc_miss].
  { apply (Hone (fun e pre1 =>
                   fst (find_source
                          e "main.c"%string
                          (fold_left (fun out x =>
                                        snd (find_source x "main.c"%string out))
                                     pre1 EmptyString)) = false)).
    reflexivity. }
  destruct Haddress as [Haddr_hit Haddr_miss].
  { apply (Hone (fun e pre1 =>
                   fst (resolve_file_address
                          e 217%N
                          (fold_left (fun out x =>
                                        snd (resolve_file_address x 217%N out))
                                     pre1 (mkAddress None 0))) = false)).
    reflexivity. }
  split; [apply Hsrc_hit; reflexivity|].
  split; [exact Hsrc_miss|].
  split; [apply Haddr_hit; reflexivity | exact Haddr_miss].
Defined.

Lemma ResolveSymbolContextForAddress_first_match_witness :
  ResolveSymbolContextForAddress addr_module resolve_context
                                 [module_A]
                                 (mkAddress (Some module_B) 20) 1 any_context
  = (1%N, mkContext (Some module_B) 20)
  /\ ResolveSymbolContextForAddress addr_module resolve_context
                                    ([module_A] ++ module_B :: [module_C])
                                    (mkAddress None 20) 1 any_context
     = (1%N, mkContext (Some module_B) 20)
  /\ ResolveSymbolContextForAddress addr_module resolve_context [module_A]
                                    (mkAddress None 20) 1 any_context
     = (0%N, any_context).
Proof.
  destruct (ResolveSymbolContextForAddress_first_match
              (MI := interface) so_address addr_module resolve_context
              [module_A] module_B [module_C] (mkAddress (Some module_B) 20)
              1%N any_context) as (Hown & _).
  destruct (ResolveSymbolContextForAddress_first_match
              (MI := interface) so_address addr_module resolve_context
              [module_A] module_B [module_C] (mkAddress None 20)
              1%N any_context) as (_ & Hscan).
  destruct (Hscan eq_refl) as [Hhit Hmiss].
  { intros pre1 e pre2 Heq.
    destruct pre1 as [| y pre1]; cbn in Heq.
    - injection Heq as <- _; reflexivity.
    - injection Heq as _ Heq; destruct pre1; discriminate. }
  split; [apply (Hown module_B); reflexivity|].
  split; [apply Hhit; vm_compute; discriminate | exact Hmiss].
Defined.

Lemma GetSharedModule_hands_out_cached_modules_witness :
  ModuleIsInCache
    (Some 1%positive)
    (res_shared (GetSharedModule spec_bin_ls_uuid None None (Some false) false
                                 (mkShared [] 1%positive)))
  = true
  /\ fst (RemoveSharedModule
            (Some (mkModule 1%positive (Data_new spec_bin_ls_uuid)))
            (res_shared (GetSharedModule spec_bin_ls_uuid None None
                                         (Some false) false
                                         (mkShared [] 1%positive))))
     = true.
Proof.
  apply (GetSharedModule_hands_out_cached_modules
           (MI := interface) spec_bin_ls_uuid None None (Some false) false
           (mkShared [] 1%positive)
           (mkModule 1%positive (Data_new spec_bin_ls_uuid)));
    reflexivity.
Defined.


Lemma GetSharedModule_with_identifier_never_evicts_witness :
  GetUUIDPtr spec_with_uuid = Some 7%N
  /\ res_old_module_sp_ptr
       (GetSharedModule spec_with_uuid None (Some (Some module_A))
                        (Some false) false
                        (mkShared [module_A; module_B] 3%positive))
     = Some None.
Proof.
  split; [reflexivity|].
  apply (GetSharedModule_with_identifier_never_evicts
           (MI := interface) spec_with_uuid None (Some (Some module_A))
           (Some false) false (mkShared (MI := interface) [module_A; module_B] 3%positive) 7%N).
  reflexivity.
Defined.

Lemma GetSharedModule_keeps_cache_distinct_witness :
  cache_distinct (mkShared [module_A; module_B] 3%positive)
  /\ cache_distinct
       (res_shared
          (GetSharedModule spec_path_only None (Some None) (Some false) false
                           (mkShared [module_A; module_B] 3%positive))).
Proof.
  assert (Hd : cache_distinct (mkShared (MI := interface) [module_A; module_B] 3%positive)).
  { split; cbn.
    - repeat constructor; simpl; intuition discriminate.
    - repeat constructor. }
  split; [exact Hd|].
  apply (GetSharedModule_keeps_cache_distinct
           (MI := interface) spec_path_only None (Some None) (Some false)
           false (mkShared (MI := interface) [module_A; module_B] 3%positive) Hd).
Defined.

Lemma GetSharedModule_old_module_was_evicted_witness :
  res_old_module_sp_ptr
    (GetSharedModule spec_path_only None (Some None) (Some false) false
                     (mkShared [module_A; module_B] 3%positive))
  = Some (Some module_A)
  /\ In module_A [module_A; module_B]
  /\ holds (g_shared_module_list
              (res_shared
                 (GetSharedModule spec_path_only None (Some None) (Some false)
                                  false
                                  (mkShared [module_A; module_B] 3%positive))))
           (Module_this module_A) = false.
Proof.
  assert (Hd : cache_distinct (mkShared (MI := interface) [module_A; module_B] 3%positive)).
  { split; cbn.
    - repeat constructor; simpl; intuition discriminate.
    - repeat constructor. }
  destruct (GetSharedModule_old_module_was_evicted
              (MI := interface) spec_path_only None (Some None) (Some false)
              false (mkShared (MI := interface) [module_A; module_B] 3%positive) module_A
              eq_refl) as (Hin & _ & Hgone).
  split; [reflexivity|]. split; [exact Hin | exact (Hgone Hd)].
Defined.

Lemma GetSharedModule_twice_same_module_by_path_witness :
  res_module_sp
    (GetSharedModule spec_path_only None None None false
                     (mkShared [module_A; module_B] 3%positive))
  = Some (mkModule 3%positive (Data_new spec_path_only))
  /\ GetSharedModule spec_path_only None None (Some true) false
       (res_shared
          (GetSharedModule spec_path_only None None None false
                           (mkShared [module_A; module_B] 3%positive)))
     = mkResult None (Some (mkModule 3%positive (Data_new spec_path_only)))
                None (Some false)
                (res_shared
                   (GetSharedModule spec_path_only None None None false
                                    (mkShared [module_A; module_B]
                                              3%positive))).
Proof.
  split; [reflexivity|].
  apply (GetSharedModule_twice_same_module_by_path
           (MI := interface) spec_path_only None None None None None
           (Some true) (mkShared (MI := interface) [module_A; module_B] 3%positive)
           (mkModule 3%positive (Data_new spec_path_only)));
    try reflexivity.
  cbn; repeat constructor; simpl; intuition discriminate.
Defined.

Lemma GetSharedModule_replaces_stale_modules_witness :
  GetSharedModule spec_path_only None (Some (Some module_C)) (Some false)
                  false (mkShared [module_A; module_C; module_B] 5%positive)
  = mkResult None (Some (mkModule 5%positive (Data_new spec_path_only)))
             (Some (Some module_A)) (Some true)
             (mkShared [module_C; mkModule 5%positive (Data_new spec_path_only)]
                       6%positive).
Proof.
  apply (GetSharedModule_replaces_stale_modules
           (MI := interface) spec_path_only None (Some module_C) false
           (mkShared (MI := interface) [module_A; module_C; module_B] 5%positive)).
  - reflexivity.
  - repeat constructor.
  - reflexivity.
Defined.

Lemma GetSharedModule_error_appends_nothing_witness :
  res_error
    (GetSharedModule spec_nowhere None None (Some true) false
                     (mkShared [module_A] 2%positive))
  = Some "'/nowhere' does not exist"%string
  /\ res_did_create_ptr
       (GetSharedModule
          spec_nowhere
          None None (Some true) false (mkShared [module_A] 2%positive))
     = Some false.
Proof.
  split; [reflexivity|].
  apply (GetSharedModule_error_appends_nothing
           (MI := interface)
           spec_nowhere
           None None (Some true) false (mkShared (MI := interface) [module_A] 2%positive)).
  discriminate.
Defined.
